(** * fasthttploader: the adaptive load driver of [loader.go]

    A shallow embedding of the three-phase controller (burst, calibrate,
    load) of [loader.go], and the properties of its specification.

    Conventions.
    - Go's [float64] (and [rate.Limit], which is a [float64]) is IEEE-754
      binary64, taken from the Standard Library's [SpecFloat] with
      precision 53 and maximal exponent 1024, rounding to nearest even.
    - Go's [uint64] and [int] are [Z]; arithmetic that can leave the range is
      wrapped explicitly.
    - The package-level variables of the source live in one [State] record
      that every function threads.
    - The goroutines of a phase communicate through [stopCh] only. A phase
      is run over the list of [select] choices taken, in the order they are
      taken, by its goroutines; the values read from the [metrics] package
      at a choice travel with the event.
    - A send on [stopCh] lets the driver, and with it the phase, return. What
      the sending goroutine does after its send is not ordered with what
      [run] does next: those statements stay pending in the [State] and are
      run one by one where an event says so, or not at all. *)

From Stdlib Require Import ZArith List Bool String Lia.
From Stdlib Require Import SpecFloat.
Import ListNotations.
Local Open Scope Z_scope.

(** ** Machine numbers *)

Module F64.

Definition float64 : Type := spec_float.

Definition prec : Z := 53.
Definition emax : Z := 1024.

Definition add : float64 -> float64 -> float64 := SFadd prec emax.
Definition mul : float64 -> float64 -> float64 := SFmul prec emax.
Definition div : float64 -> float64 -> float64 := SFdiv prec emax.
Definition abs : float64 -> float64 := SFabs.
Definition ltb : float64 -> float64 -> bool := SFltb.
Definition eqb : float64 -> float64 -> bool := SFeqb.

(** [float64(z)] for an integer [z]: the nearest binary64. *)
Definition ofZ (z : Z) : float64 := binary_normalize prec emax z 0 false.

(** A decimal constant [n / 10^k] of the source, as the compiler rounds
    it: the nearest binary64 to the exact quotient. *)
Definition decimal (n : Z) (k : Z) : float64 := div (ofZ n) (ofZ (10 ^ k)).

(** The integer part of a finite float, fraction discarded (towards
    zero); [None] for infinities and NaN. *)
Definition truncZ (f : float64) : option Z :=
  match f with
  | S754_zero _ => Some 0
  | S754_finite s m e =>
      Some (cond_Zopp s (if 0 <=? e then Zpos m * 2 ^ e
                         else Zpos m / 2 ^ (- e)))
  | S754_infinity _ | S754_nan => None
  end.

(** The exact value of a finite float as a fraction
    [numerator / denominator]. *)
Definition exact (f : float64) : option (Z * Z) :=
  match f with
  | S754_zero _ => Some (0, 1)
  | S754_finite s m e =>
      Some (if 0 <=? e then (cond_Zopp s (Zpos m * 2 ^ e), 1)
            else (cond_Zopp s (Zpos m), 2 ^ (- e)))
  | S754_infinity _ | S754_nan => None
  end.

Definition minInt64 : Z := - 2 ^ 63.
Definition maxInt64 : Z := 2 ^ 63 - 1.

(** [int(f)] and [int64(f)]. Go leaves the result open when the value
    does not fit; the value taken here is the one amd64 produces. *)
Definition toInt (f : float64) : Z :=
  match truncZ f with
  | Some z => if (minInt64 <=? z) && (z <=? maxInt64) then z else minInt64
  | None => minInt64
  end.

(** [uint64(f)], with the same proviso outside [0, 2^64). *)
Definition toUint64 (f : float64) : Z :=
  match truncZ f with
  | Some z => if (0 <=? z) && (z <? 2 ^ 64) then z else (toInt f) mod 2 ^ 64
  | None => (toInt f) mod 2 ^ 64
  end.

End F64.

Import F64.

(** Wrap-around of [uint64] and of the signed 64-bit [int]. *)
Definition u64 (z : Z) : Z := z mod 2 ^ 64.
Definition i64 (z : Z) : Z := (z + 2 ^ 63) mod 2 ^ 64 - 2 ^ 63.

(** ** [time.Duration]: a count of nanoseconds *)

Definition Duration : Type := Z.
Definition Millisecond : Duration := 1000000.
Definition Second : Duration := 1000000000.

(** [Duration.Seconds] of package [time]:
    [float64(d / Second) + float64(d % Second) / 1e9]. *)
Definition Seconds (d : Duration) : float64 :=
  add (ofZ (Z.quot d Second)) (div (ofZ (Z.rem d Second)) (ofZ (10 ^ 9))).

(** [time.Tick d]: a nil channel, which never delivers, when [d <= 0]. *)
Definition Tick (d : Duration) : option Duration :=
  if d <=? 0 then None else Some d.

(** ** Constants of the package *)

Definition calibrateDuration : Duration := 5 * Second.
Definition samplePeriod : Duration := 500 * Millisecond.

(** ** Collaborators outside [loader.go] *)

(** One reading of the counters of package [metrics]. *)
Record Metrics : Type := mkMetrics {
  ConnOpen : Z;
  Errors : Z;
  Timeouts : Z;
  RequestSum : Z;
  RequestSuccess : Z;
  BytesWritten : Z;
  BytesRead : Z;
  RequestDuration : list (float64 * float64)
}.

(** The page of package [report], with its embedded mutex. *)
Record Page : Type := mkPage {
  Title : string;
  Interval : float64;
  Durations : list (float64 * list float64);
  Connections : list Z;
  ErrorsSeries : list Z;
  TimeoutsSeries : list Z;
  RequestSumSeries : list Z;
  RequestSuccessSeries : list Z;
  BytesWrittenSeries : list Z;
  BytesReadSeries : list Z;
  Qps : list Z;
  locked : bool
}.

(** Modelled from the spec: [Page.UpdateRequestDuration] of package
    [report] is not part of [loader.go]. The observed value of every
    bucket of the reading is appended to that bucket's list. *)
Fixpoint observe (b v : float64) (h : list (float64 * list float64))
  : list (float64 * list float64) :=
  match h with
  | [] => [(b, [v])]
  | (b', vs) :: h' =>
      if eqb b b' then (b', vs ++ [v]) :: h' else (b', vs) :: observe b v h'
  end.

Definition UpdateRequestDuration (d : list (float64 * float64))
  (h : list (float64 * list float64)) : list (float64 * list float64) :=
  fold_left (fun acc bv => observe (fst bv) (snd bv) acc) d h.

(** The worker pool of [metrics.Client]: the number of workers, the number
    of tokens sent on [Jobsch], the number of calls of [Flush]. *)
Record Client : Type := mkClient {
  workers : Z;
  jobs : Z;
  flushes : Z
}.

(** Modelled from the spec: [Client.RunWorkers], [Client.Amount],
    [Client.Flush] and the channel [Client.Jobsch] are not part of
    [loader.go]. [RunWorkers n] spawns [n] additional workers, the pool
    only grows, and [Flush] terminates no worker. *)
Definition RunWorkers (n : Z) (cl : Client) : Client :=
  mkClient (workers cl + Z.max 0 n) (jobs cl) (flushes cl).

Definition Amount (cl : Client) : Z := workers cl.

Definition Flush (cl : Client) : Client :=
  mkClient (workers cl) (jobs cl) (flushes cl + 1).

(** [client.Jobsch <- struct{}{}] *)
Definition submit (cl : Client) : Client :=
  mkClient (workers cl) (jobs cl + 1) (flushes cl).

(** ** Output *)

Inductive line : Type :=
| Println (s : string)
| PrintErr (err : string)
| Summary (stage : string) (m : Metrics)
| DebugState (mult limit : float64) (amount overflow : Z) (m : Metrics)
| ReportWritten (p : Page).

(** ** The package-level variables *)

Record loadConfig : Type := mkConfig {
  qps : float64;
  c : Z
}.

Record State : Type := mkState {
  errors : Z;
  multiplier : float64;
  await : Z;
  throttle : float64;
  client : Client;
  r : Page;
  stdout : list line;
  (** the goroutine started by [calibrateThroughput] has not returned *)
  calibrating : bool;
  (** the statements that goroutine has still to run after its send on
      [stopCh] at the deadline: 3 when both stores and the summary are to
      come, 2 when the store of [cfg.c] and the summary are, 1 when the
      summary is, 0 when it is not past that send *)
  storing : Z;
  (** the goroutine started by [makeLoad] has sent on [stopCh] at its
      deadline and has still to print its summary *)
  summarising : bool
}.

Definition set_errors (e : Z) (st : State) : State :=
  mkState e (multiplier st) (await st) (throttle st) (client st) (r st)
          (stdout st) (calibrating st) (storing st) (summarising st).
Definition set_multiplier (m : float64) (st : State) : State :=
  mkState (errors st) m (await st) (throttle st) (client st) (r st)
          (stdout st) (calibrating st) (storing st) (summarising st).
Definition set_await (a : Z) (st : State) : State :=
  mkState (errors st) (multiplier st) a (throttle st) (client st) (r st)
          (stdout st) (calibrating st) (storing st) (summarising st).
(** [throttle.SetLimit] *)
Definition SetLimit (l : float64) (st : State) : State :=
  mkState (errors st) (multiplier st) (await st) l (client st) (r st)
          (stdout st) (calibrating st) (storing st) (summarising st).
Definition set_client (cl : Client) (st : State) : State :=
  mkState (errors st) (multiplier st) (await st) (throttle st) cl (r st)
          (stdout st) (calibrating st) (storing st) (summarising st).
Definition set_r (p : Page) (st : State) : State :=
  mkState (errors st) (multiplier st) (await st) (throttle st) (client st) p
          (stdout st) (calibrating st) (storing st) (summarising st).
Definition print (l : line) (st : State) : State :=
  mkState (errors st) (multiplier st) (await st) (throttle st) (client st)
          (r st) (stdout st ++ [l]) (calibrating st) (storing st)
          (summarising st).
Definition set_calibrating (b : bool) (st : State) : State :=
  mkState (errors st) (multiplier st) (await st) (throttle st) (client st)
          (r st) (stdout st) b (storing st) (summarising st).
Definition set_storing (n : Z) (st : State) : State :=
  mkState (errors st) (multiplier st) (await st) (throttle st) (client st)
          (r st) (stdout st) (calibrating st) n (summarising st).
Definition set_summarising (b : bool) (st : State) : State :=
  mkState (errors st) (multiplier st) (await st) (throttle st) (client st)
          (r st) (stdout st) (calibrating st) (storing st) b.

(** The variables as the package initialises them: [errors] is zero,
    [multiplier] is 0.1, [await] is 0, the limiter is
    [rate.NewLimiter(1, 1)]; [r] is only set by [run]. *)
Definition emptyPage : Page :=
  mkPage EmptyString (S754_zero false) [] [] [] [] [] [] [] [] [] false.

Definition initial : State :=
  mkState 0 (decimal 1 1) 0 (ofZ 1) (mkClient 0 0 0) emptyPage [] false 0
          false.

(** ** The command-line flags

    The flags are declared outside [loader.go]; [run] and the phases read
    them through pointers. *)

Module flag.
Record Flags : Type := mkFlags {
  q : float64;
  c : Z;
  d : Duration;
  debug : bool;
  fileName : string
}.
End flag.

(** ** How a function of the program ends

    [Running st]: the events at hand are used up and the function is still
    in its loop, the variables being [st]. *)

Inductive outcome (A : Type) : Type :=
| Returned (a : A)
| Panicked (msg : string)
| Fatal (msg : string)
| Running (st : State).

Arguments Returned {A} a.
Arguments Panicked {A} msg.
Arguments Fatal {A} msg.
Arguments Running {A} st.

Definition bind {A B : Type} (o : outcome A) (k : A -> outcome B)
  : outcome B :=
  match o with
  | Returned a => k a
  | Panicked msg => Panicked msg
  | Fatal msg => Fatal msg
  | Running st => Running st
  end.

Notation "x <- o ;; k" := (bind o (fun x => k))
  (at level 61, o at next level, right associativity).

(** ** [printSummary] *)

Definition printSummary (stage : string) (m : Metrics) (st : State) : State :=
  print (Summary stage m) st.

(** ** [printState]: one sample *)

Inductive pageOp : Type :=
| Lock
| AppendConnections (v : Z)
| AppendErrors (v : Z)
| AppendTimeouts (v : Z)
| AppendRequestSum (v : Z)
| AppendRequestSuccess (v : Z)
| AppendBytesWritten (v : Z)
| AppendBytesRead (v : Z)
| AppendQps (v : Z)
| MergeDurations (h : list (float64 * float64))
| Unlock.

Definition apply (o : pageOp) (p : Page) : Page :=
  match o with
  | Lock =>
      mkPage (Title p) (Interval p) (Durations p) (Connections p)
        (ErrorsSeries p) (TimeoutsSeries p) (RequestSumSeries p)
        (RequestSuccessSeries p) (BytesWrittenSeries p) (BytesReadSeries p)
        (Qps p) true
  | AppendConnections v =>
      mkPage (Title p) (Interval p) (Durations p) (Connections p ++ [v])
        (ErrorsSeries p) (TimeoutsSeries p) (RequestSumSeries p)
        (RequestSuccessSeries p) (BytesWrittenSeries p) (BytesReadSeries p)
        (Qps p) (locked p)
  | AppendErrors v =>
      mkPage (Title p) (Interval p) (Durations p) (Connections p)
        (ErrorsSeries p ++ [v]) (TimeoutsSeries p) (RequestSumSeries p)
        (RequestSuccessSeries p) (BytesWrittenSeries p) (BytesReadSeries p)
        (Qps p) (locked p)
  | AppendTimeouts v =>
      mkPage (Title p) (Interval p) (Durations p) (Connections p)
        (ErrorsSeries p) (TimeoutsSeries p ++ [v]) (RequestSumSeries p)
        (RequestSuccessSeries p) (BytesWrittenSeries p) (BytesReadSeries p)
        (Qps p) (locked p)
  | AppendRequestSum v =>
      mkPage (Title p) (Interval p) (Durations p) (Connections p)
        (ErrorsSeries p) (TimeoutsSeries p) (RequestSumSeries p ++ [v])
        (RequestSuccessSeries p) (BytesWrittenSeries p) (BytesReadSeries p)
        (Qps p) (locked p)
  | AppendRequestSuccess v =>
      mkPage (Title p) (Interval p) (Durations p) (Connections p)
        (ErrorsSeries p) (TimeoutsSeries p) (RequestSumSeries p)
        (RequestSuccessSeries p ++ [v]) (BytesWrittenSeries p)
        (BytesReadSeries p) (Qps p) (locked p)
  | AppendBytesWritten v =>
      mkPage (Title p) (Interval p) (Durations p) (Connections p)
        (ErrorsSeries p) (TimeoutsSeries p) (RequestSumSeries p)
        (RequestSuccessSeries p) (BytesWrittenSeries p ++ [v])
        (BytesReadSeries p) (Qps p) (locked p)
  | AppendBytesRead v =>
      mkPage (Title p) (Interval p) (Durations p) (Connections p)
        (ErrorsSeries p) (TimeoutsSeries p) (RequestSumSeries p)
        (RequestSuccessSeries p) (BytesWrittenSeries p)
        (BytesReadSeries p ++ [v]) (Qps p) (locked p)
  | AppendQps v =>
      mkPage (Title p) (Interval p) (Durations p) (Connections p)
        (ErrorsSeries p) (TimeoutsSeries p) (RequestSumSeries p)
        (RequestSuccessSeries p) (BytesWrittenSeries p) (BytesReadSeries p)
        (Qps p ++ [v]) (locked p)
  | MergeDurations h =>
      mkPage (Title p) (Interval p) (UpdateRequestDuration h (Durations p))
        (Connections p) (ErrorsSeries p) (TimeoutsSeries p)
        (RequestSumSeries p) (RequestSuccessSeries p) (BytesWrittenSeries p)
        (BytesReadSeries p) (Qps p) (locked p)
  | Unlock =>
      mkPage (Title p) (Interval p) (Durations p) (Connections p)
        (ErrorsSeries p) (TimeoutsSeries p) (RequestSumSeries p)
        (RequestSuccessSeries p) (BytesWrittenSeries p) (BytesReadSeries p)
        (Qps p) false
  end.

Definition applyAll (ops : list pageOp) (p : Page) : Page :=
  fold_left (fun acc o => apply o acc) ops p.

(** The statements of [printState] on [r], in program order. *)
Definition sampleOps (m : Metrics) (limit : float64) : list pageOp :=
  [ Lock;
    AppendConnections (ConnOpen m);
    AppendErrors (Errors m);
    AppendTimeouts (Timeouts m);
    AppendRequestSum (RequestSum m);
    AppendRequestSuccess (RequestSuccess m);
    AppendBytesWritten (BytesWritten m);
    AppendBytesRead (BytesRead m);
    AppendQps (toUint64 limit);
    MergeDurations (RequestDuration m);
    Unlock ].

Definition printState (dbg : bool) (m : Metrics) (overflow : Z) (st : State)
  : State :=
  let st1 :=
    if dbg
    then print (DebugState (multiplier st) (throttle st)
                  (Amount (client st)) overflow m) st
    else st in
  set_r (applyAll (sampleOps m (throttle st1)) (r st1)) st1.

(** ** [isFlawed] and [calibrate] *)

(** [errs] is the value of [metrics.Errors()] at the call. *)
Definition isFlawed (errs : Z) (st : State) : bool * State :=
  if (0 <? errs) && negb (errors st =? errs)
  then (true, set_errors errs st)
  else (false, st).

Definition negligible (m : float64) : bool := ltb (abs m) (decimal 1 4).

(** The second component tells whether [calibrate] sent on [stopCh]. *)
Definition calibrate (errs overflow : Z) (st : State) : State * bool :=
  if negligible (multiplier st) then
    (print (Println "Multiplier is negligible now. Stoping calibrate") st,
     true)
  else if 0 <? await st then
    (set_await (i64 (await st - 1)) st, false)
  else
    let (flawed, st1) := isFlawed errs st in
    if negb flawed then
      if 0 <? overflow then
        let n := toInt (mul (ofZ (Amount (client st1))) (multiplier st1)) in
        let st2 := set_client (RunWorkers n (client st1)) st1 in
        (set_await (i64 (await st2 + 1)) st2, false)
      else
        let st2 :=
          SetLimit (mul (throttle st1) (add (ofZ 1) (multiplier st1))) st1 in
        (set_await (i64 (await st2 + 1)) st2, false)
    else
      let st2 := set_multiplier (div (multiplier st1) (decimal 12 1)) st1 in
      (set_await (i64 (await st2 + 3)) st2, false).

(** ** [load]: the driver loop

    One turn of the loop takes the [default] branch of the [select]: it
    waits on the limiter, prints the error if there is one, and sends a
    token on [Jobsch]. [w] is what [throttle.Wait] returned. *)
Definition drive (w : option string) (st : State) : State :=
  let st1 := match w with
             | Some err => print (PrintErr err) st
             | None => st
             end in
  set_client (submit (client st1)) st1.

(** The [stopCh] branch: flush and return. *)
Definition stopped (st : State) : State :=
  set_client (Flush (client st)) st.

Inductive driverEvent : Type :=
| Stop
| Default (w : option string).

(** [load] over the choices of its [select]; the boolean tells whether it
    has returned. *)
Fixpoint load (evs : list driverEvent) (st : State) : State * bool :=
  match evs with
  | [] => (st, false)
  | Stop :: _ => (stopped st, true)
  | Default w :: evs' => load evs' (drive w st)
  end.

(** ** Phase 1: [burstThroughput] *)

Inductive burstEvent : Type :=
| BurstTimeout (m : Metrics)
| BurstDefault.

(** The [timeout] branch. The test on the share of errors is written with
    [uint64] operands: the quotient is the integer quotient, the product
    wraps, and a zero divisor is a run-time panic. *)
Definition burstDeadline (m : Metrics) (st : State)
  : outcome (loadConfig * State) :=
  let cfg :=
    mkConfig (div (ofZ (RequestSum m)) (Seconds calibrateDuration))
             (Amount (client st)) in
  if RequestSum m =? 0 then
    Panicked "runtime error: integer divide by zero"
  else
    let cfg1 :=
      if 2 <? u64 (Errors m / RequestSum m * 100)
      then mkConfig (div (qps cfg) (ofZ 2)) (Z.quot (c cfg) 2)
      else cfg in
    let st1 := printSummary "Burst Throughput" m st in
    Returned (cfg1, set_client (Flush (client st1)) st1).

Fixpoint burstLoop (evs : list burstEvent) (st : State)
  : outcome (loadConfig * State) :=
  match evs with
  | [] => Running st
  | BurstTimeout m :: _ => burstDeadline m st
  | BurstDefault :: evs' => burstLoop evs' (set_client (submit (client st)) st)
  end.

Definition burstThroughput (fl : flag.Flags) (evs : list burstEvent)
  (st : State) : outcome (loadConfig * State) :=
  burstLoop evs (set_client (RunWorkers (flag.c fl) (client st)) st).

(** ** Phase 2: [calibrateThroughput]

    The events are the choices of the goroutine ([CalTimeout], [CalTick])
    and of the driver loop running beside it ([CalDefault]). A send on
    [stopCh] is received by the driver, which flushes and returns, and with
    it [calibrateThroughput]. No counter is read in the [timeout] branch
    before the send: the reading of [CalTimeout] is not used. *)

Inductive calEvent : Type :=
| CalTimeout (m : Metrics)
| CalTick (m : Metrics) (overflow : Z)
| CalDefault (w : option string).

(** The [timeout] branch, up to its send on [stopCh]: the driver flushes
    and returns. The stores of [cfg.qps] and [cfg.c] and the summary come
    after the send and stay pending. *)
Definition deadlineSent (st : State) : State :=
  set_storing 3 (stopped st).

(** One pending statement of that branch: the store of [cfg.qps], the
    store of [cfg.c], then the summary, after which the goroutine returns.
    [m] is what the summary reads. *)
Definition lateConfig (cfg : loadConfig) (st : State) : loadConfig :=
  if calibrating st then
    if storing st =? 3 then mkConfig (throttle st) (c cfg)
    else if storing st =? 2 then mkConfig (qps cfg) (Amount (client st))
    else cfg
  else cfg.

Definition lateState (m : Metrics) (st : State) : State :=
  if calibrating st then
    if storing st =? 3 then set_storing 2 st
    else if storing st =? 2 then set_storing 1 st
    else if storing st =? 1 then
      set_calibrating false
        (set_storing 0 (printSummary "Adjustment test" m st))
    else st
  else st.

(** Whether the goroutine of [calibrateThroughput] is in its loop. *)
Definition looping (st : State) : bool :=
  calibrating st && (storing st =? 0).

(** The [tick] branch. *)
Definition calSample (dbg : bool) (m : Metrics) (overflow : Z) (st : State)
  : State * bool :=
  calibrate (Errors m) overflow (printState dbg m overflow st).

Fixpoint calLoop (dbg : bool) (evs : list calEvent) (cfg : loadConfig)
  (st : State) : outcome (loadConfig * State) :=
  match evs with
  | [] => Running st
  | CalTimeout _ :: _ => Returned (cfg, deadlineSent st)
  | CalTick m overflow :: evs' =>
      let (st1, stop) := calSample dbg m overflow st in
      if stop then Returned (cfg, stopped st1)
      else calLoop dbg evs' cfg st1
  | CalDefault w :: evs' => calLoop dbg evs' cfg (drive w st)
  end.

Definition calibrateThroughput (fl : flag.Flags) (evs : list calEvent)
  (cfg : loadConfig) (st : State) : outcome (loadConfig * State) :=
  let st1 := set_client (RunWorkers (c cfg) (client st)) st in
  let st2 := SetLimit (qps cfg) st1 in
  calLoop (flag.debug fl) evs cfg (set_calibrating true st2).

(** ** Phase 3: [makeLoad]

    [StepTick] and [StateTick] are the two tickers of the goroutine of
    [makeLoad]. [LateTick] and [LateTimeout] are the ticker and the
    deadline of the goroutine of [calibrateThroughput], which is still in
    its loop when [calibrate] ended the phase; its sends on [stopCh] reach
    the driver of this phase. [LateStep] is that goroutine running the
    next statement it has pending after its send at the deadline. The
    summary of the goroutine of [makeLoad] comes after its own send and
    stays pending: no reading of [LoadTimeout] is used. *)

Inductive loadEvent : Type :=
| LoadTimeout (m : Metrics)
| StepTick
| StateTick (m : Metrics) (overflow : Z)
| LoadDefault (w : option string)
| LateTick (m : Metrics) (overflow : Z)
| LateTimeout (m : Metrics)
| LateStep (m : Metrics).

(** The period handed to [time.Tick] for the steps:
    [time.Second * time.Duration(d.Seconds() / 2 / 10)]. *)
Definition stepSeconds (d : Duration) : Z :=
  toInt (div (div (Seconds d) (ofZ 2)) (ofZ 10)).

Definition stepTicker (d : Duration) : option Duration :=
  Tick (i64 (Second * stepSeconds d)).

(** The [stepTick] branch, [steps] being the local counter. *)
Definition loadStep (qpsStep : float64) (workerStep : Z) (steps : Z)
  (st : State) : Z * State :=
  if 10 - 1 <=? steps then (steps, st)
  else
    let st1 := SetLimit (add (throttle st) qpsStep) st in
    (steps + 1, set_client (RunWorkers workerStep (client st1)) st1).

Fixpoint loadLoop (dbg : bool) (stepTick : option Duration)
  (qpsStep : float64) (workerStep : Z) (evs : list loadEvent) (steps : Z)
  (st : State) : outcome State :=
  match evs with
  | [] => Running st
  | LoadTimeout _ :: _ =>
      Returned (set_summarising true (stopped st))
  | StepTick :: evs' =>
      match stepTick with
      | None =>
          (* a nil channel is never ready: the branch is not taken *)
          loadLoop dbg stepTick qpsStep workerStep evs' steps st
      | Some _ =>
          let (steps1, st1) := loadStep qpsStep workerStep steps st in
          loadLoop dbg stepTick qpsStep workerStep evs' steps1 st1
      end
  | StateTick m overflow :: evs' =>
      loadLoop dbg stepTick qpsStep workerStep evs' steps
        (printState dbg m overflow st)
  | LoadDefault w :: evs' =>
      loadLoop dbg stepTick qpsStep workerStep evs' steps (drive w st)
  | LateTick m overflow :: evs' =>
      if looping st then
        let (st1, stop) := calSample dbg m overflow st in
        if stop then Returned (stopped st1)
        else loadLoop dbg stepTick qpsStep workerStep evs' steps st1
      else loadLoop dbg stepTick qpsStep workerStep evs' steps st
  | LateTimeout _ :: evs' =>
      if looping st then Returned (deadlineSent st)
      else loadLoop dbg stepTick qpsStep workerStep evs' steps st
  | LateStep m :: evs' =>
      (* [cfg] is not read again: the stores change nothing here *)
      loadLoop dbg stepTick qpsStep workerStep evs' steps (lateState m st)
  end.

(** The pending statements that run before [makeLoad] reads [cfg]: the
    [LateStep]s at the head of the events. *)
Fixpoint handOver (evs : list loadEvent) (cfg : loadConfig) (st : State)
  : list loadEvent * (loadConfig * State) :=
  match evs with
  | LateStep m :: evs' => handOver evs' (lateConfig cfg st) (lateState m st)
  | _ => (evs, (cfg, st))
  end.

Definition makeLoad (fl : flag.Flags) (evs : list loadEvent)
  (cfg : loadConfig) (st : State) : outcome State :=
  let h := handOver evs cfg st in
  let cfg := fst (snd h) in
  let st := snd (snd h) in
  let stepTick := stepTicker (flag.d fl) in
  let workerStep := Z.quot (c cfg) 10 in
  let qpsStep := div (qps cfg) (ofZ 10) in
  let st1 := SetLimit qpsStep st in
  let st2 := set_client (RunWorkers workerStep (client st1)) st1 in
  loadLoop (flag.debug fl) stepTick qpsStep workerStep (fst h) 0 st2.

(** ** [makeReport] and [run] *)

(** [created] tells whether [os.Create] succeeded. *)
Definition makeReport (fl : flag.Flags) (created : bool) (st : State)
  : outcome State :=
  if created then
    Returned (print (Println "Check test results at")
                (print (ReportWritten (r st)) st))
  else Fatal "Error while trying to create file".

(** What the surroundings of one run supply. *)
Record World : Type := mkWorld {
  host : string;
  burstEvents : list burstEvent;
  calEvents : list calEvent;
  loadEvents : list loadEvent;
  created : bool
}.

Definition newPage (w : World) : Page :=
  mkPage (host w) (Seconds samplePeriod) [] [] [] [] [] [] [] [] [] false.

(** The start of [run]: a fresh client and a fresh page. *)
Definition setup (w : World) (st : State) : State :=
  set_r (newPage w) (set_client (mkClient 0 0 0) st).

Definition run (fl : flag.Flags) (w : World) (st : State) : outcome State :=
  let st0 := setup w st in
  let cfg := mkConfig (S754_zero false) 0 in
  cs <- (if eqb (flag.q fl) (ofZ 0) then
           let st1 := print (Println "Run burst-load phase") st0 in
           cs1 <- burstThroughput fl (burstEvents w) st1 ;;
           let st2 := print (Println "Run calibrate phase") (snd cs1) in
           calibrateThroughput fl (calEvents w) (fst cs1) st2
         else
           Returned (mkConfig (flag.q fl) (flag.c fl), st0)) ;;
  let st3 := print (Println "Run load phase") (snd cs) in
  st4 <- makeLoad fl (loadEvents w) (fst cs) st3 ;;
  makeReport fl (created w) st4.

(** Successive sample ticks seen by [calibrate], until it sends on
    [stopCh]. An observation is the pair of [metrics.Errors()] and
    [client.Overflow()]. *)
Fixpoint ticks (obs : list (Z * Z)) (st : State) : State * bool :=
  match obs with
  | [] => (st, false)
  | (errs, overflow) :: obs' =>
      let (st1, stop) := calibrate errs overflow st in
      if stop then (st1, true) else ticks obs' st1
  end.

(** ** Readings and states used as examples *)

Definition reading (errs sum : Z) : Metrics :=
  mkMetrics 0 errs 0 sum (sum - errs) 0 0 [].

(** The variables of a program whose pool holds [n] workers and that has
    not calibrated yet. *)
Definition pool (n : Z) : State := set_client (mkClient n 0 0) initial.

Definition flags (q : float64) (c0 : Z) (d : Duration) : flag.Flags :=
  flag.mkFlags q c0 d false "report.html".

(** The estimate of the burst phase, and its half. *)
Definition burstConfig (m : Metrics) (st : State) : loadConfig :=
  mkConfig (div (ofZ (RequestSum m)) (Seconds calibrateDuration))
           (Amount (client st)).

Definition halved (cfg : loadConfig) : loadConfig :=
  mkConfig (div (qps cfg) (ofZ 2)) (Z.quot (c cfg) 2).

(** ** Observations on the report page *)

(** The lengths of the eight series, in the order in which [printState]
    appends to them. *)
Definition seriesLengths (p : Page) : list nat :=
  [ List.length (Connections p); List.length (ErrorsSeries p);
    List.length (TimeoutsSeries p); List.length (RequestSumSeries p);
    List.length (RequestSuccessSeries p); List.length (BytesWrittenSeries p);
    List.length (BytesReadSeries p); List.length (Qps p) ].





Definition world (bs : list burstEvent) (cs : list calEvent)
  (ls : list loadEvent) : World :=
  mkWorld "localhost" bs cs ls true.

(** The phase banners and summary titles on the output so far. *)
Definition banners (st : State) : list string :=
  flat_map (fun l => match l with
                     | Println s => [s]
                     | Summary s _ => [s]
                     | _ => []
                     end) (stdout st).

(** A run that discovers its rate: one burst turn; one calibrate sample;
    one step, one sample and the deadline of the load phase. *)
Definition discovery : World :=
  world [BurstDefault; BurstTimeout (reading 0 1000)]
        [CalDefault None; CalTick (reading 0 1100) 0;
         CalTimeout (reading 0 1200)]
        [StepTick; StateTick (reading 0 1300) 0; LoadTimeout (reading 0 1400)].

(** ** The actions of the program on its variables *)


(** Whether a call of [calibrate] evaluates and retreats. *)
Definition retreats (errs : Z) (st : State) : bool :=
  negb (negligible (multiplier st)) && (await st <=? 0)
  && fst (isFlawed errs st).

(** An action that assigns none of [errors], [multiplier] and [await]:
    every statement of [loader.go] outside [calibrate] and [isFlawed]. *)
Definition frame (st st' : State) : Prop :=
  errors st' = errors st /\ multiplier st' = multiplier st /\
  await st' = await st.

(** One action: a call of [calibrate], or an action of the frame. *)
Inductive step : State -> State -> Prop :=
| step_calibrate (errs overflow : Z) (st : State) :
    step st (fst (calibrate errs overflow st))
| step_frame (st st' : State) : frame st st' -> step st st'.

Inductive steps : State -> State -> Prop :=
| steps_refl (st : State) : steps st st
| steps_next (st st1 st2 : State) :
    steps st st1 -> step st1 st2 -> steps st st2.

Definition reachable (st : State) : Prop := steps initial st.

(** The state in which a function of the program is left. *)
Definition leaves {A : Type} (proj : A -> State) (o : outcome A)
  (st' : State) : Prop :=
  (exists a, o = Returned a /\ proj a = st') \/ o = Running st'.

(** ** The ramp of the load phase *)

(** The raising branch of [loadStep]. *)
Definition rampStep (qpsStep : float64) (workerStep : Z) (st : State)
  : State :=
  let st1 := SetLimit (add (throttle st) qpsStep) st in
  set_client (RunWorkers workerStep (client st1)) st1.

(** What the goroutine of a load phase takes when only its sample ticker
    fires, [n] times, before the deadline. *)
Definition quiet (n : nat) (m : Metrics) : list loadEvent :=
  repeat (StateTick m 0) n ++ [LoadTimeout m].

(** ** Counting the turns of the loops *)

(** The step ticks a load phase takes before its deadline. *)
Fixpoint stepsTaken (evs : list loadEvent) : nat :=
  match evs with
  | [] => O
  | LoadTimeout _ :: _ => O
  | StepTick :: evs' => S (stepsTaken evs')
  | _ :: evs' => stepsTaken evs'
  end.

(** The turns the driver takes before it is stopped. *)
Fixpoint turnsTaken (evs : list driverEvent) : nat :=
  match evs with
  | [] => O
  | Stop :: _ => O
  | Default _ :: evs' => S (turnsTaken evs')
  end.

(** Error counts that never go down, starting at or above [b]. *)
Fixpoint rising (b : Z) (obs : list (Z * Z)) : Prop :=
  match obs with
  | [] => True
  | (errs, _) :: obs' => b <= errs /\ rising errs obs'
  end.

(** The last error count of [obs], [b] when there is none. *)
Fixpoint lastCount (b : Z) (obs : list (Z * Z)) : Z :=
  match obs with
  | [] => b
  | (errs, _) :: obs' => lastCount errs obs'
  end.

(** A page whose eight series have one length and whose mutex is free. *)
Definition balanced (p : Page) : Prop :=
  (exists n, seriesLengths p = repeat n 8) /\ locked p = false.

(** [P] holds of the [n] integers from [k] on. *)
Fixpoint upto (P : Z -> bool) (n : nat) (k : Z) : bool :=
  match n with
  | O => true
  | S n' => P k && upto P n' (k + 1)
  end.

(** * Properties *)

(** ** Machine numbers *)

Lemma i64_small : forall z, - 2 ^ 63 <= z < 2 ^ 63 -> i64 z = z.
Proof.
  intros z Hz. unfold i64.
  rewrite Z.mod_small by lia. lia.
Qed.

Lemma u64_small : forall z, 0 <= z < 2 ^ 64 -> u64 z = z.
Proof. intros z Hz. unfold u64. now rewrite Z.mod_small. Qed.

(** [int(f)] is the floor of the exact value of [f] when that value is
    not negative and fits. *)
Lemma toInt_floor :
  forall f n d,
    exact f = Some (n, d) -> 0 <= n -> n / d <= maxInt64 ->
    toInt f = n / d.
Proof.
  intros f n d He Hn Hfit. unfold toInt.
  destruct f as [s | s | | s m e]; unfold exact in He; try discriminate.
  - assert (E : n = 0 /\ d = 1) by (split; congruence).
    destruct E as [-> ->]. reflexivity.
  - unfold truncZ. destruct (0 <=? e) eqn:Ee.
    + assert (E : n = cond_Zopp s (Z.pos m * 2 ^ e) /\ d = 1)
        by (split; congruence).
      destruct E as [-> ->]. clear He. apply Z.leb_le in Ee.
      assert (Hp : 0 < 2 ^ e) by (apply Z.pow_pos_nonneg; lia).
      rewrite Z.div_1_r in *.
      assert (Hm : 0 < Z.pos m * 2 ^ e) by (apply Z.mul_pos_pos; lia).
      destruct s; unfold cond_Zopp in *; [lia|].
      assert (H0 : minInt64 <= Z.pos m * 2 ^ e) by (unfold minInt64; lia).
      apply Z.leb_le in H0, Hfit. now rewrite H0, Hfit.
    + assert (E : n = cond_Zopp s (Z.pos m) /\ d = 2 ^ (- e))
        by (split; congruence).
      destruct E as [-> ->]. clear He.
      destruct s; unfold cond_Zopp in *; [lia|].
      assert (H0 : minInt64 <= Z.pos m / 2 ^ (- e)).
      { unfold minInt64. transitivity 0; [lia|].
        apply Z.div_pos; [lia|]. apply Z.pow_pos_nonneg; lia. }
      apply Z.leb_le in H0, Hfit. now rewrite H0, Hfit.
Qed.

(** ** The decision of [isFlawed] *)

Lemma isFlawed_true_iff :
  forall errs st,
    fst (isFlawed errs st) = true <-> 0 < errs /\ errors st <> errs.
Proof.
  intros errs st. unfold isFlawed.
  destruct (0 <? errs) eqn:E1, (errors st =? errs) eqn:E2; simpl;
    rewrite ?Z.ltb_lt, ?Z.ltb_ge, ?Z.eqb_eq, ?Z.eqb_neq in *;
    split; intros; try discriminate; try tauto; try lia.
Qed.

Lemma isFlawed_increase :
  forall errs st,
    0 <= errors st <= errs ->
    fst (isFlawed errs st) = (errors st <? errs).
Proof.
  intros errs st H. unfold isFlawed.
  destruct (0 <? errs) eqn:E1, (errors st =? errs) eqn:E2; simpl;
    rewrite ?Z.ltb_lt, ?Z.ltb_ge, ?Z.eqb_eq, ?Z.eqb_neq in *;
    symmetry; rewrite ?Z.ltb_lt, ?Z.ltb_ge; lia.
Qed.

Lemma isFlawed_state :
  forall errs st,
    snd (isFlawed errs st)
    = if fst (isFlawed errs st) then set_errors errs st else st.
Proof.
  intros errs st. unfold isFlawed.
  now destruct ((0 <? errs) && negb (errors st =? errs)).
Qed.

Lemma calibrate_skip :
  forall errs overflow st,
    negligible (multiplier st) = false ->
    0 < await st < 2 ^ 63 ->
    calibrate errs overflow st = (set_await (await st - 1) st, false).
Proof.
  intros errs overflow st Hm Ha. unfold calibrate. rewrite Hm.
  assert (E : (0 <? await st) = true) by (apply Z.ltb_lt; lia).
  rewrite E, i64_small; [reflexivity|lia].
Qed.

Lemma ticks_skip :
  forall o obs st,
    negligible (multiplier st) = false ->
    0 < await st < 2 ^ 63 ->
    ticks (o :: obs) st = ticks obs (set_await (await st - 1) st).
Proof.
  intros [errs overflow] obs st Hm Ha. cbn [ticks].
  now rewrite calibrate_skip.
Qed.

(** The three branches of an evaluation. *)
Lemma calibrate_retreat :
  forall errs overflow st,
    negligible (multiplier st) = false ->
    await st <= 0 ->
    fst (isFlawed errs st) = true ->
    calibrate errs overflow st =
    (set_await (i64 (await st + 3))
       (set_multiplier (div (multiplier st) (decimal 12 1))
          (set_errors errs st)), false).
Proof.
  intros errs overflow st Hm Ha Hf. unfold calibrate. rewrite Hm.
  apply Z.ltb_ge in Ha. rewrite Ha.
  rewrite (surjective_pairing (isFlawed errs st)), isFlawed_state, Hf.
  reflexivity.
Qed.

Lemma calibrate_workers :
  forall errs overflow st,
    negligible (multiplier st) = false ->
    await st <= 0 ->
    fst (isFlawed errs st) = false ->
    0 < overflow ->
    calibrate errs overflow st =
    (set_await (i64 (await st + 1))
       (set_client
          (RunWorkers (toInt (mul (ofZ (Amount (client st))) (multiplier st)))
             (client st)) st), false).
Proof.
  intros errs overflow st Hm Ha Hf Ho. unfold calibrate. rewrite Hm.
  apply Z.ltb_ge in Ha. rewrite Ha.
  rewrite (surjective_pairing (isFlawed errs st)), isFlawed_state, Hf.
  apply Z.ltb_lt in Ho. cbn [negb]. rewrite Ho. reflexivity.
Qed.

Lemma calibrate_limit :
  forall errs overflow st,
    negligible (multiplier st) = false ->
    await st <= 0 ->
    fst (isFlawed errs st) = false ->
    overflow <= 0 ->
    calibrate errs overflow st =
    (set_await (i64 (await st + 1))
       (SetLimit (mul (throttle st) (add (ofZ 1) (multiplier st))) st),
     false).
Proof.
  intros errs overflow st Hm Ha Hf Ho. unfold calibrate. rewrite Hm.
  apply Z.ltb_ge in Ha. rewrite Ha.
  rewrite (surjective_pairing (isFlawed errs st)), isFlawed_state, Hf.
  apply Z.ltb_ge in Ho. cbn [negb]. rewrite Ho. reflexivity.
Qed.

(** C1, amended. A sample tick at which [calibrate] evaluates (the
    multiplier is not negligible and no tick remains to be skipped) does
    exactly one of three things, by the baseline [errors], which is zero
    when the program starts and is set only by a retreat. If the error count
    is not above the baseline: with a backlog,
    [int(float64(amount) * multiplier)] workers are started (the floor of
    the product when it is not negative) and the limit is kept; without one, the limit is multiplied by [1 + multiplier] and
    the pool is kept; either way the next tick is skipped. If the error
    count is above the baseline, the multiplier is divided by 1.2, and the
    next three ticks are skipped. *)
Theorem calibrate_evaluation :
  forall (errs overflow : Z) (st : State),
    negligible (multiplier st) = false ->
    await st = 0 ->
    0 <= errors st <= errs ->
    let st' := fst (calibrate errs overflow st) in
    let n := toInt (mul (ofZ (Amount (client st))) (multiplier st)) in
    snd (calibrate errs overflow st) = false /\
    (errs <= errors st ->
       (0 < overflow ->
          client st' = RunWorkers n (client st) /\
          Amount (client st') = Amount (client st) + Z.max 0 n /\
          (forall num den,
             exact (mul (ofZ (Amount (client st))) (multiplier st))
             = Some (num, den) ->
             0 <= num -> num / den <= maxInt64 -> n = num / den) /\
          throttle st' = throttle st) /\
       (overflow <= 0 ->
          throttle st' = mul (throttle st) (add (ofZ 1) (multiplier st)) /\
          client st' = client st) /\
       multiplier st' = multiplier st /\
       errors st' = errors st /\
       await st' = 1 /\
       (forall o1, ticks [o1] st' = (set_await 0 st', false))) /\
    (errors st < errs ->
       multiplier st' = div (multiplier st) (decimal 12 1) /\
       throttle st' = throttle st /\
       client st' = client st /\
       await st' = 3 /\
       (negligible (multiplier st') = false ->
        forall o1 o2 o3,
          ticks [o1] st' = (set_await 2 st', false) /\
          ticks [o1; o2] st' = (set_await 1 st', false) /\
          ticks [o1; o2; o3] st' = (set_await 0 st', false))).
Proof.
  intros errs overflow st Hm Ha He st' n.
  assert (Hf := isFlawed_increase errs st He).
  assert (Ha0 : await st <= 0) by lia.
  destruct (errors st <? errs) eqn:Elt.
  - apply Z.ltb_lt in Elt.
    assert (E := calibrate_retreat errs overflow st Hm Ha0 Hf).
    subst st'. rewrite E, Ha. change (i64 (0 + 3)) with 3. cbn [fst snd].
    split; [reflexivity|]. split; [lia|]. intros _.
    repeat (split; [reflexivity|]).
    intros Hn o1 o2 o3.
    rewrite !ticks_skip; cbn [ticks]; try assumption;
      try (cbn; lia).
    repeat split.
  - apply Z.ltb_ge in Elt.
    destruct (Z.ltb_spec 0 overflow) as [Ho|Ho].
    + assert (E := calibrate_workers errs overflow st Hm Ha0 Hf Ho).
      subst st'. rewrite E, Ha. change (i64 (0 + 1)) with 1. cbn [fst snd].
      split; [reflexivity|]. split; [|lia]. intros _.
      split; [intros _; repeat split; apply toInt_floor|]. split; [lia|].
      repeat (split; [reflexivity|]).
      intros o1. rewrite ticks_skip; cbn [ticks]; try assumption;
        try (cbn; lia). reflexivity.
    + assert (E := calibrate_limit errs overflow st Hm Ha0 Hf Ho).
      subst st'. rewrite E, Ha. change (i64 (0 + 1)) with 1. cbn [fst snd].
      split; [reflexivity|]. split; [|lia]. intros _.
      split; [lia|]. split; [intros _; repeat split|].
      repeat (split; [reflexivity|]).
      intros o1. rewrite ticks_skip; cbn [ticks]; try assumption;
        try (cbn; lia). reflexivity.
Qed.

Lemma calibrate_evaluation_witness :
  negligible (multiplier (pool 10)) = false /\
  await (pool 10) = 0 /\
  0 <= errors (pool 10) <= 0 /\
  Amount (client (fst (calibrate 0 1 (pool 10)))) = 11 /\
  throttle (fst (calibrate 0 0 (pool 10)))
  = mul (ofZ 1) (add (ofZ 1) (decimal 1 1)) /\
  multiplier (fst (calibrate 7 0 (pool 10)))
  = div (decimal 1 1) (decimal 12 1).
Proof.
  assert (Hm : negligible (multiplier (pool 10)) = false) by reflexivity.
  assert (Ha : await (pool 10) = 0) by reflexivity.
  assert (H0 : 0 <= errors (pool 10) <= 0) by (simpl; lia).
  assert (H7 : 0 <= errors (pool 10) <= 7) by (simpl; lia).
  repeat (split; [assumption|]).
  split; [|split].
  - destruct (calibrate_evaluation 0 1 (pool 10) Hm Ha H0) as [_ [H _]].
    destruct (H (proj2 H0)) as [Hw _].
    destruct (Hw eq_refl) as [_ [-> _]]. reflexivity.
  - destruct (calibrate_evaluation 0 0 (pool 10) Hm Ha H0) as [_ [H _]].
    destruct (H (proj2 H0)) as [_ [Hl _]].
    destruct (Hl (Z.le_refl 0)) as [-> _]. reflexivity.
  - destruct (calibrate_evaluation 7 0 (pool 10) Hm Ha H7) as [_ [_ H]].
    destruct (H eq_refl) as [-> _]. reflexivity.
Defined.

(** C1, as the claim has it, fails: the first evaluation after a burst
    phase that counted errors reads the count the burst phase ended with,
    no error more, and yet it does not escalate and skip one tick: it
    retreats. *)
Lemma escalation_since_burst_fails :
  ~ (forall fl evs m st cfg st' overflow,
       burstThroughput fl (evs ++ [BurstTimeout m]) st = Returned (cfg, st') ->
       negligible (multiplier st') = false -> await st' = 0 ->
       multiplier (fst (calibrate (Errors m) overflow st')) = multiplier st' /\
       await (fst (calibrate (Errors m) overflow st')) = 1).
Proof.
  intros H.
  destruct (burstThroughput (flags (ofZ 0) 8 (30 * Second))
              ([BurstDefault] ++ [BurstTimeout (reading 5 1000)]) initial)
    as [[cfg st']| | |] eqn:E; try discriminate.
  specialize (H _ _ _ _ _ _ 0 E).
  injection E as _ <-.
  destruct (H eq_refl eq_refl) as [_ Ha].
  vm_compute in Ha. discriminate Ha.
Qed.

(** ** The end of the burst phase *)

Lemma burstDeadline_zero :
  forall m st,
    RequestSum m = 0 ->
    burstDeadline m st = Panicked "runtime error: integer divide by zero".
Proof. intros m st H. unfold burstDeadline. now rewrite H. Qed.

Lemma burstDeadline_nonzero :
  forall m st,
    RequestSum m <> 0 ->
    burstDeadline m st =
    Returned
      (if 2 <? u64 (Errors m / RequestSum m * 100)
       then halved (burstConfig m st) else burstConfig m st,
       stopped (printSummary "Burst Throughput" m st)).
Proof.
  intros m st H. unfold burstDeadline.
  apply Z.eqb_neq in H. rewrite H. reflexivity.
Qed.

Lemma burstLoop_defaults :
  forall n m rest st,
    burstLoop (repeat BurstDefault n ++ BurstTimeout m :: rest) st =
    burstDeadline m
      (set_client (mkClient (workers (client st)) (jobs (client st) + Z.of_nat n)
                     (flushes (client st))) st).
Proof.
  induction n as [|n IH]; intros m rest st.
  - cbn [repeat app burstLoop]. f_equal.
    destruct st as [e mu a t [wk jb fs] p out cal]; cbn.
    now rewrite Z.add_0_r.
  - cbn [repeat app burstLoop]. rewrite IH, Nat2Z.inj_succ. f_equal.
    destruct st as [e mu a t [wk jb fs] p out cal].
    unfold set_client, submit; cbn [client workers jobs flushes].
    do 2 f_equal. lia.
Qed.

Lemma burstThroughput_deadline :
  forall fl n m rest st,
    burstThroughput fl (repeat BurstDefault n ++ BurstTimeout m :: rest) st =
    burstDeadline m
      (set_client
         (mkClient (workers (client st) + Z.max 0 (flag.c fl))
            (jobs (client st) + Z.of_nat n) (flushes (client st))) st).
Proof.
  intros fl n m rest st. unfold burstThroughput.
  rewrite burstLoop_defaults. f_equal.
Qed.

(** C10. The test at the deadline of the burst phase divides the error
    counter by the request counter as [uint64] values and nothing guards
    the divisor: when no request was counted the program panics and no
    estimate is produced; when at least one was counted the phase returns,
    the estimate being halved exactly when the integer quotient times 100
    (modulo 2^64) exceeds 2. *)
Theorem burst_divides_by_request_sum :
  forall fl n m rest st,
    let evs := repeat BurstDefault n ++ BurstTimeout m :: rest in
    let st1 :=
      set_client
        (mkClient (workers (client st) + Z.max 0 (flag.c fl))
           (jobs (client st) + Z.of_nat n) (flushes (client st))) st in
    (RequestSum m = 0 ->
       burstThroughput fl evs st
       = Panicked "runtime error: integer divide by zero" /\
       forall w,
         eqb (flag.q fl) (ofZ 0) = true -> burstEvents w = evs ->
         run fl w st = Panicked "runtime error: integer divide by zero") /\
    (RequestSum m <> 0 ->
       burstThroughput fl evs st
       = Returned
           (if 2 <? u64 (Errors m / RequestSum m * 100)
            then halved (burstConfig m st1) else burstConfig m st1,
            stopped (printSummary "Burst Throughput" m st1))).
Proof.
  intros fl n m rest st evs st1. subst evs. split.
  - intros H0. split.
    + rewrite burstThroughput_deadline. now apply burstDeadline_zero.
    + intros w Hq Hev. unfold run. rewrite Hq, Hev.
      rewrite burstThroughput_deadline, burstDeadline_zero by assumption.
      reflexivity.
  - intros Hn. rewrite burstThroughput_deadline.
    now apply burstDeadline_nonzero.
Qed.

Lemma burst_divides_by_request_sum_witness :
  RequestSum (reading 0 0) = 0 /\
  RequestSum (reading 4 8) <> 0 /\
  burstThroughput (flags (ofZ 0) 8 (30 * Second))
    [BurstDefault; BurstTimeout (reading 0 0)] initial
  = Panicked "runtime error: integer divide by zero" /\
  (exists st',
     burstThroughput (flags (ofZ 0) 8 (30 * Second))
       [BurstDefault; BurstTimeout (reading 4 8)] initial
     = Returned (mkConfig (decimal 16 1) 8, st')).
Proof.
  assert (H0 : RequestSum (reading 0 0) = 0) by reflexivity.
  assert (H8 : RequestSum (reading 4 8) <> 0) by discriminate.
  split; [exact H0|]. split; [exact H8|]. split.
  - exact (proj1 (proj1 (burst_divides_by_request_sum
                           (flags (ofZ 0) 8 (30 * Second)) 1 (reading 0 0)
                           [] initial) H0)).
  - eexists.
    exact (proj2 (burst_divides_by_request_sum
                    (flags (ofZ 0) 8 (30 * Second)) 1 (reading 4 8)
                    [] initial) H8).
Defined.

(** What the integer quotient makes of the 2% threshold. *)
Lemma burst_partial_errors_keep :
  forall m st,
    0 <= Errors m < RequestSum m ->
    burstDeadline m st
    = Returned (burstConfig m st,
                stopped (printSummary "Burst Throughput" m st)).
Proof.
  intros m st H. rewrite burstDeadline_nonzero by lia.
  rewrite Z.div_small by lia. reflexivity.
Qed.

Lemma burst_all_errors_halve :
  forall m st,
    0 < RequestSum m -> Errors m = RequestSum m ->
    burstDeadline m st
    = Returned (halved (burstConfig m st),
                stopped (printSummary "Burst Throughput" m st)).
Proof.
  intros m st H E. rewrite burstDeadline_nonzero by lia.
  rewrite E, Z.div_same by lia. reflexivity.
Qed.

(** C2, on the code. A burst phase that ends with 50 errors among 100
    requests, half of them, and 8 workers: the estimate is 100 / 5 = 20
    requests per second and 8 workers, and neither is halved. *)
Theorem burst_half_errors_not_halved :
  2 * RequestSum (reading 50 100) < 100 * Errors (reading 50 100) /\
  burstDeadline (reading 50 100) (pool 8)
  = Returned (mkConfig (ofZ 20) 8,
              stopped
                (printSummary "Burst Throughput" (reading 50 100) (pool 8))).
Proof. split; reflexivity. Qed.

(** ** The baseline of [isFlawed] *)

Lemma burstLoop_frame :
  forall evs st cfg st',
    burstLoop evs st = Returned (cfg, st') ->
    errors st' = errors st /\ multiplier st' = multiplier st /\
    await st' = await st.
Proof.
  induction evs as [|[m|] evs IH]; intros st cfg st' H; cbn [burstLoop] in H.
  - discriminate.
  - unfold burstDeadline in H.
    destruct (RequestSum m =? 0); [discriminate|].
    injection H as _ <-. repeat split.
  - apply IH in H. exact H.
Qed.

Lemma printState_frame :
  forall dbg m overflow st,
    errors (printState dbg m overflow st) = errors st /\
    multiplier (printState dbg m overflow st) = multiplier st /\
    await (printState dbg m overflow st) = await st /\
    throttle (printState dbg m overflow st) = throttle st /\
    client (printState dbg m overflow st) = client st /\
    calibrating (printState dbg m overflow st) = calibrating st.
Proof. intros [|] m overflow st; repeat split. Qed.

Lemma drive_frame :
  forall w st,
    errors (drive w st) = errors st /\
    multiplier (drive w st) = multiplier st /\
    await (drive w st) = await st /\
    throttle (drive w st) = throttle st /\
    r (drive w st) = r st /\
    calibrating (drive w st) = calibrating st.
Proof. intros [err|] st; repeat split. Qed.

(** Whether a call of [calibrate] is an evaluation that retreats. *)
Lemma calibrate_errors :
  forall errs overflow st,
    errors (fst (calibrate errs overflow st))
    = if negb (negligible (multiplier st)) && (await st <=? 0)
         && fst (isFlawed errs st)
      then errs else errors st.
Proof.
  intros errs overflow st. unfold calibrate.
  destruct (negligible (multiplier st)); [reflexivity|].
  rewrite Z.leb_antisym. destruct (0 <? await st); [reflexivity|].
  rewrite (surjective_pairing (isFlawed errs st)), isFlawed_state.
  cbn [negb andb].
  destruct (fst (isFlawed errs st)); cbn [negb]; [reflexivity|].
  now destruct (0 <? overflow).
Qed.

(** C4, as the claim has it, fails: were the baseline the error count at
    the end of the burst phase, a first evaluation that reads the very
    same count would not be flawed. *)
Lemma flawed_since_burst_fails :
  ~ (forall fl evs m st cfg st' errs,
       burstThroughput fl (evs ++ [BurstTimeout m]) st = Returned (cfg, st') ->
       Errors m <= errs ->
       (fst (isFlawed errs st') = true <-> Errors m < errs)).
Proof.
  intros H.
  destruct (burstThroughput (flags (ofZ 0) 8 (30 * Second))
              ([BurstDefault] ++ [BurstTimeout (reading 5 1000)]) initial)
    as [[cfg st']| | |] eqn:E; try discriminate.
  specialize (H _ _ _ _ _ _ 5 E (Z.le_refl _)).
  injection E as _ <-.
  assert (F : fst (isFlawed 5
                     (stopped
                        (printSummary "Burst Throughput" (reading 5 1000)
                           (set_client
                              (submit
                                 (client
                                    (set_client
                                       (RunWorkers 8 (client initial))
                                       initial)))
                              (set_client (RunWorkers 8 (client initial))
                                 initial))))) = true) by reflexivity.
  apply H in F. cbn in F. lia.
Qed.

(** C4, amended. The baseline is the variable [errors]: zero when the
    program starts, left alone by the burst phase, by sampling and by the
    driver, and set to the current count by exactly those calls of
    [calibrate] that evaluate and retreat. Against a baseline that is not
    above the current count, [isFlawed] holds exactly when the count is
    strictly above the baseline. *)
Theorem flawed_since_baseline :
  errors initial = 0 /\
  (forall fl evs st cfg st',
     burstThroughput fl evs st = Returned (cfg, st') ->
     errors st' = errors st) /\
  (forall dbg m overflow st,
     errors (printState dbg m overflow st) = errors st) /\
  (forall w st, errors (drive w st) = errors st) /\
  (forall errs st,
     0 <= errors st <= errs ->
     (fst (isFlawed errs st) = true <-> errors st < errs)) /\
  (forall errs overflow st,
     errors (fst (calibrate errs overflow st))
     = if negb (negligible (multiplier st)) && (await st <=? 0)
          && fst (isFlawed errs st)
       then errs else errors st).
Proof.
  split; [reflexivity|]. split.
  { intros fl evs st cfg st' H. unfold burstThroughput in H.
    apply burstLoop_frame in H. now destruct H as [-> _]. }
  split; [intros; apply printState_frame|].
  split; [intros; apply drive_frame|].
  split; [|apply calibrate_errors].
  intros errs st H. rewrite isFlawed_increase by assumption.
  apply Z.ltb_lt.
Qed.

Lemma flawed_since_baseline_witness :
  0 <= errors initial <= 5 /\
  (fst (isFlawed 5 initial) = true <-> errors initial < 5) /\
  (exists cfg st',
     burstThroughput (flags (ofZ 0) 8 (30 * Second))
       [BurstTimeout (reading 5 1000)] initial = Returned (cfg, st') /\
     errors st' = errors initial).
Proof.
  assert (H : 0 <= errors initial <= 5) by (simpl; lia).
  destruct flawed_since_baseline as [_ [Hb [_ [_ [Hf _]]]]].
  split; [exact H|]. split; [exact (Hf 5 initial H)|].
  eexists. eexists. split; [reflexivity|].
  apply (Hb (flags (ofZ 0) 8 (30 * Second)) [BurstTimeout (reading 5 1000)]
              initial (mkConfig (ofZ 200) 8)).
  reflexivity.
Defined.

(** ** The driver loop *)

(** C7, as the claim has it, fails: a turn of the loop whose wait was
    cancelled still sends a token to the pool. *)
Lemma cancelled_wait_still_submits :
  ~ (forall err evs st,
       jobs (client (fst (load (Default (Some err) :: evs) st)))
       = jobs (client st)).
Proof.
  intros H.
  specialize (H "context canceled"%string [Stop] initial).
  discriminate H.
Qed.

Lemma load_returns_iff :
  forall evs st, snd (load evs st) = true <-> In Stop evs.
Proof.
  induction evs as [|[|w] evs IH]; intros st; cbn [load snd In].
  - split; [discriminate|tauto].
  - split; [now left|reflexivity].
  - rewrite IH. split; [now right|].
    intros [H|H]; [discriminate|exact H].
Qed.

(** C7, amended. When [throttle.Wait] returns an error the driver prints
    it and goes on as after a successful wait: it sends one token to the
    pool and takes the next turn. The loop returns on [stopCh] only, after
    flushing the pool. *)
Theorem load_submits_after_any_wait :
  (forall w st, jobs (client (drive w st)) = jobs (client st) + 1) /\
  (forall err st, stdout (drive (Some err) st) = stdout st ++ [PrintErr err]) /\
  (forall w evs st, load (Default w :: evs) st = load evs (drive w st)) /\
  (forall evs st, load (Stop :: evs) st = (stopped st, true)) /\
  (forall evs st, snd (load evs st) = true <-> In Stop evs).
Proof.
  split; [now intros [err|] st|].
  split; [reflexivity|]. split; [reflexivity|]. split; [reflexivity|].
  apply load_returns_iff.
Qed.

Lemma load_submits_after_any_wait_witness :
  load [Default (Some "context canceled"%string); Default None; Stop] initial
  = (stopped
       (drive None (drive (Some "context canceled"%string) initial)), true) /\
  jobs (client (drive (Some "context canceled"%string) initial)) = 1 /\
  In Stop [Default (Some "context canceled"%string); Default None; Stop].
Proof.
  destruct load_submits_after_any_wait as [Hj [_ [Hd [Hs Hr]]]].
  split; [now rewrite !Hd, Hs|].
  split; [exact (Hj (Some "context canceled"%string) initial)|].
  apply (proj1 (Hr [Default (Some "context canceled"%string);
                    Default None; Stop] initial)).
  reflexivity.
Defined.

(** ** Sampling *)

Lemma calibrate_frame :
  forall errs overflow st,
    r (fst (calibrate errs overflow st)) = r st /\
    calibrating (fst (calibrate errs overflow st)) = calibrating st.
Proof.
  intros errs overflow st. unfold calibrate, isFlawed.
  destruct (negligible (multiplier st)); [now split|].
  destruct (0 <? await st); [now split|].
  destruct ((0 <? errs) && negb (errors st =? errs)); cbn [negb];
    [now split|].
  destruct (0 <? overflow); now split.
Qed.

Lemma printState_lengths :
  forall dbg m overflow st n,
    seriesLengths (r st) = repeat n 8 ->
    seriesLengths (r (printState dbg m overflow st)) = repeat (S n) 8.
Proof.
  intros dbg m overflow st n H.
  assert (E : seriesLengths (r (printState dbg m overflow st))
              = map S (seriesLengths (r st))).
  { destruct dbg; unfold printState, seriesLengths; cbn;
      rewrite !List.length_app; cbn; rewrite !Nat.add_1_r; reflexivity. }
  rewrite E, H. reflexivity.
Qed.


Lemma printState_looping :
  forall dbg m overflow st,
    storing (printState dbg m overflow st) = storing st /\
    looping (printState dbg m overflow st) = looping st.
Proof. intros [|] m overflow st; split; reflexivity. Qed.

Lemma drive_looping :
  forall w st,
    storing (drive w st) = storing st /\ looping (drive w st) = looping st.
Proof. intros [err|] st; split; reflexivity. Qed.


Lemma lateState_sample :
  forall m st,
    r (lateState m st) = r st /\
    (looping st = false -> looping (lateState m st) = false).
Proof.
  intros m st. unfold lateState, looping.
  destruct (calibrating st) eqn:Ec; [|now rewrite Ec].
  destruct (storing st =? 3) eqn:E3.
  { cbn. now rewrite Ec. }
  destruct (storing st =? 2) eqn:E2.
  { cbn. now rewrite Ec. }
  destruct (storing st =? 1) eqn:E1.
  { cbn. split; reflexivity. }
  now rewrite Ec.
Qed.




(** ** The choice of [run] *)

Lemma bind_returned :
  forall (A B : Type) (o : outcome A) (k : A -> outcome B) (b : B),
    bind o k = Returned b ->
    exists a, o = Returned a /\ k a = Returned b.
Proof.
  intros A B [a| | |] k b H; try discriminate.
  exists a. now split.
Qed.

(** C9. With [-q] equal to zero, [run] goes through the burst phase, then
    the calibrate phase, and hands the configuration they found to the load
    phase. With any other [-q], the load phase is the first to run, on the
    configuration [qps = q], [workers = c] of the command line, and nothing
    of the events of the two other phases is looked at. *)
Theorem run_phases :
  forall fl w st,
    (eqb (flag.q fl) (ofZ 0) = true ->
       run fl w st =
       (cs1 <- burstThroughput fl (burstEvents w)
                 (print (Println "Run burst-load phase") (setup w st)) ;;
        cs2 <- calibrateThroughput fl (calEvents w) (fst cs1)
                 (print (Println "Run calibrate phase") (snd cs1)) ;;
        st4 <- makeLoad fl (loadEvents w) (fst cs2)
                 (print (Println "Run load phase") (snd cs2)) ;;
        makeReport fl (created w) st4) /\
       forall st',
         run fl w st = Returned st' ->
         exists cfg1 st1 cfg2 st2 st4,
           burstThroughput fl (burstEvents w)
             (print (Println "Run burst-load phase") (setup w st))
           = Returned (cfg1, st1) /\
           calibrateThroughput fl (calEvents w) cfg1
             (print (Println "Run calibrate phase") st1)
           = Returned (cfg2, st2) /\
           makeLoad fl (loadEvents w) cfg2
             (print (Println "Run load phase") st2)
           = Returned st4 /\
           makeReport fl (created w) st4 = Returned st') /\
    (eqb (flag.q fl) (ofZ 0) = false ->
       run fl w st =
       (st4 <- makeLoad fl (loadEvents w)
                 (mkConfig (flag.q fl) (flag.c fl))
                 (print (Println "Run load phase") (setup w st)) ;;
        makeReport fl (created w) st4) /\
       forall bs cs,
         run fl (mkWorld (host w) bs cs (loadEvents w) (created w)) st
         = run fl w st).
Proof.
  intros fl w st. split; intros Hq.
  - assert (E : run fl w st =
       (cs1 <- burstThroughput fl (burstEvents w)
                 (print (Println "Run burst-load phase") (setup w st)) ;;
        cs2 <- calibrateThroughput fl (calEvents w) (fst cs1)
                 (print (Println "Run calibrate phase") (snd cs1)) ;;
        st4 <- makeLoad fl (loadEvents w) (fst cs2)
                 (print (Println "Run load phase") (snd cs2)) ;;
        makeReport fl (created w) st4)).
    { unfold run. rewrite Hq.
      destruct (burstThroughput fl (burstEvents w)
                  (print (Println "Run burst-load phase") (setup w st)))
        as [[cfg1 st1]| | |]; reflexivity. }
    split; [exact E|].
    intros st' H. rewrite E in H.
    apply bind_returned in H. destruct H as [[cfg1 st1] [H1 H]].
    apply bind_returned in H. destruct H as [[cfg2 st2] [H2 H]].
    apply bind_returned in H. destruct H as [st4 [H3 H4]].
    exists cfg1, st1, cfg2, st2, st4. auto.
  - split.
    + unfold run. rewrite Hq. reflexivity.
    + intros bs cs. unfold run. rewrite Hq. reflexivity.
Qed.

Lemma run_phases_witness :
  eqb (ofZ 0) (ofZ 0) = true /\
  eqb (ofZ 100) (ofZ 0) = false /\
  (exists st',
     run (flags (ofZ 0) 8 (40 * Second)) discovery initial = Returned st' /\
     banners st'
     = ["Run burst-load phase"; "Burst Throughput"; "Run calibrate phase";
        "Run load phase"; "Check test results at"]%string) /\
  (exists st',
     run (flags (ofZ 100) 8 (40 * Second)) discovery initial = Returned st' /\
     banners st'
     = ["Run load phase"; "Check test results at"]%string /\
     throttle st' = ofZ 20).
Proof.
  assert (H0 : eqb (flag.q (flags (ofZ 0) 8 (40 * Second))) (ofZ 0) = true)
    by reflexivity.
  assert (H1 : eqb (flag.q (flags (ofZ 100) 8 (40 * Second))) (ofZ 0) = false)
    by reflexivity.
  split; [exact H0|]. split; [exact H1|]. split.
  - eexists. split.
    + rewrite (proj1 (proj1 (run_phases _ discovery initial) H0)).
      vm_compute. reflexivity.
    + vm_compute. reflexivity.
  - eexists. split; [|split].
    + rewrite (proj1 (proj2 (run_phases _ discovery initial) H1)).
      vm_compute. reflexivity.
    + vm_compute. reflexivity.
    + vm_compute. reflexivity.
Defined.

(** ** The multiplier *)














(** ** Every function of the program is a sequence of actions *)


Lemma leaves_bind :
  forall (A B : Type) (pb : B -> State)
         (o : outcome A) (k : A -> outcome B) (st' : State),
    leaves pb (bind o k) st' ->
    o = Running st' \/ exists a, o = Returned a /\ leaves pb (k a) st'.
Proof.
  intros A B pb [a|msg|msg|st1] k st' [[b [H Hb]]|H]; cbn [bind] in H;
    try discriminate.
  - right. exists a. split; [reflexivity|]. left. now exists b.
  - right. exists a. split; [reflexivity|]. now right.
  - left. injection H as <-. reflexivity.
Qed.






(** The pending statements touch neither the adaptive variables nor the
    limiter, the pool or the page. *)
Lemma lateState_keeps :
  forall m st,
    frame st (lateState m st) /\
    throttle (lateState m st) = throttle st /\
    client (lateState m st) = client st /\
    r (lateState m st) = r st.
Proof.
  intros m st. unfold lateState, frame.
  destruct (calibrating st); [|repeat split].
  destruct (storing st =? 3); [repeat split|].
  destruct (storing st =? 2); [repeat split|].
  destruct (storing st =? 1); repeat split.
Qed.











(** ** How the calibrate phase ends *)



Lemma handOver_reads_first :
  forall evs cfg st,
    (forall m, hd_error evs <> Some (LateStep m)) ->
    handOver evs cfg st = (evs, (cfg, st)).
Proof.
  intros evs cfg st Hhd. destruct evs as [|e evs]; [reflexivity|].
  destruct e; try reflexivity.
  exfalso. now apply (Hhd m).
Qed.

(** C6, on the code. A calibrate phase entered with 200 requests per
    second and 8 workers: one evaluation raises the limit to 200 * 1.1,
    then the deadline comes. The goroutine sends on [stopCh] before it
    stores anything: the phase returns with the configuration still at 200
    requests per second and 8 workers, the limit being 220 and the pool
    holding 16, and the three statements of the goroutine pending. A load
    phase that reads the configuration before they run sets the limit to
    200 / 10. *)
Theorem calibrate_deadline_hands_old_config :
  exists st1 st2,
    calibrateThroughput (flags (ofZ 0) 8 (40 * Second)) (calEvents discovery)
      (mkConfig (ofZ 200) 8) (pool 8)
    = Returned (mkConfig (ofZ 200) 8, st1) /\
    throttle st1 = mul (ofZ 200) (add (ofZ 1) (decimal 1 1)) /\
    eqb (throttle st1) (ofZ 200) = false /\
    Amount (client st1) = 16 /\
    storing st1 = 3 /\
    makeLoad (flags (ofZ 0) 8 (40 * Second)) [StateTick (reading 0 1300) 0]
      (mkConfig (ofZ 200) 8) (print (Println "Run load phase") st1)
    = Running st2 /\
    throttle st2 = ofZ 20.
Proof.
  destruct (calibrateThroughput (flags (ofZ 0) 8 (40 * Second))
              (calEvents discovery) (mkConfig (ofZ 200) 8) (pool 8))
    as [[cfg st1]| | |] eqn:E; try (vm_compute in E; discriminate E).
  assert (Hcfg : cfg = mkConfig (ofZ 200) 8).
  { change cfg with (fst (cfg, st1)).
    change (fst (cfg, st1)) with
      (match Returned (cfg, st1) with
       | Returned a => fst a
       | _ => mkConfig (ofZ 200) 8
       end).
    rewrite <- E. vm_compute. reflexivity. }
  assert (Hst : st1 = match calibrateThroughput
                              (flags (ofZ 0) 8 (40 * Second))
                              (calEvents discovery) (mkConfig (ofZ 200) 8)
                              (pool 8) with
                      | Returned a => snd a
                      | _ => initial
                      end) by (now rewrite E).
  destruct (makeLoad (flags (ofZ 0) 8 (40 * Second))
              [StateTick (reading 0 1300) 0] (mkConfig (ofZ 200) 8)
              (print (Println "Run load phase") st1))
    as [st2| | |st2] eqn:E2;
    try (rewrite Hst in E2; vm_compute in E2; discriminate E2).
  exists st1, st2. rewrite Hcfg.
  split; [reflexivity|].
  assert (H2 : st2 = match makeLoad (flags (ofZ 0) 8 (40 * Second))
                             [StateTick (reading 0 1300) 0]
                             (mkConfig (ofZ 200) 8)
                             (print (Println "Run load phase") st1) with
                     | Running s => s
                     | _ => initial
                     end) by (now rewrite E2).
  rewrite H2, Hst. vm_compute. repeat split.
Qed.

(** The same phase when the two stores run before the load phase reads the
    configuration: the limit starts at 220 / 10. *)
Lemma calibrate_deadline_stores_first :
  exists st1 st2,
    calibrateThroughput (flags (ofZ 0) 8 (40 * Second)) (calEvents discovery)
      (mkConfig (ofZ 200) 8) (pool 8)
    = Returned (mkConfig (ofZ 200) 8, st1) /\
    makeLoad (flags (ofZ 0) 8 (40 * Second))
      [LateStep (reading 0 1250); LateStep (reading 0 1250);
       StateTick (reading 0 1300) 0]
      (mkConfig (ofZ 200) 8) (print (Println "Run load phase") st1)
    = Running st2 /\
    throttle st2 = div (mul (ofZ 200) (add (ofZ 1) (decimal 1 1))) (ofZ 10).
Proof.
  destruct (calibrateThroughput (flags (ofZ 0) 8 (40 * Second))
              (calEvents discovery) (mkConfig (ofZ 200) 8) (pool 8))
    as [[cfg st1]| | |] eqn:E; try (vm_compute in E; discriminate E).
  assert (Hcfg : cfg = mkConfig (ofZ 200) 8).
  { change cfg with (fst (cfg, st1)).
    change (fst (cfg, st1)) with
      (match Returned (cfg, st1) with
       | Returned a => fst a
       | _ => mkConfig (ofZ 200) 8
       end).
    rewrite <- E. vm_compute. reflexivity. }
  assert (Hst : st1 = match calibrateThroughput
                              (flags (ofZ 0) 8 (40 * Second))
                              (calEvents discovery) (mkConfig (ofZ 200) 8)
                              (pool 8) with
                      | Returned a => snd a
                      | _ => initial
                      end) by (now rewrite E).
  destruct (makeLoad (flags (ofZ 0) 8 (40 * Second))
              [LateStep (reading 0 1250); LateStep (reading 0 1250);
               StateTick (reading 0 1300) 0] (mkConfig (ofZ 200) 8)
              (print (Println "Run load phase") st1))
    as [st2| | |st2] eqn:E2;
    try (rewrite Hst in E2; vm_compute in E2; discriminate E2).
  exists st1, st2. rewrite Hcfg.
  split; [reflexivity|]. split; [exact E2|].
  assert (H2 : st2 = match makeLoad (flags (ofZ 0) 8 (40 * Second))
                             [LateStep (reading 0 1250);
                              LateStep (reading 0 1250);
                              StateTick (reading 0 1300) 0]
                             (mkConfig (ofZ 200) 8)
                             (print (Println "Run load phase") st1) with
                     | Running s => s
                     | _ => initial
                     end) by (now rewrite E2).
  rewrite H2, Hst. vm_compute. reflexivity.
Qed.


Ltac fields :=
  unfold set_errors, set_multiplier, set_await, SetLimit, set_client;
  cbn [errors multiplier await throttle client r stdout calibrating storing
       summarising].


(** ** The ramp of the load phase *)

(** When the goroutine of [calibrateThroughput] has returned, nothing of
    it is pending and none of its events is taken. *)
Lemma lateState_idle :
  forall m st, calibrating st = false -> lateState m st = st.
Proof. intros m st H. unfold lateState. now rewrite H. Qed.

Lemma looping_idle :
  forall st, calibrating st = false -> looping st = false.
Proof. intros st H. unfold looping. now rewrite H. Qed.

Lemma handOver_idle :
  forall evs cfg st,
    calibrating st = false -> snd (handOver evs cfg st) = (cfg, st).
Proof.
  induction evs as [|e evs IH]; intros cfg st H; [reflexivity|].
  destruct e; try reflexivity.
  cbn [handOver]. unfold lateConfig. rewrite lateState_idle, H by exact H.
  now apply IH.
Qed.

Lemma handOver_stepsTaken :
  forall evs cfg st,
    stepsTaken (fst (handOver evs cfg st)) = stepsTaken evs.
Proof.
  induction evs as [|e evs IH]; intros cfg st; [reflexivity|].
  destruct e; try reflexivity.
  cbn [handOver stepsTaken]. apply IH.
Qed.

Lemma loadLoop_without_ticker :
  forall dbg qs ws evs n st st',
    calibrating st = false ->
    leaves (fun s => s) (loadLoop dbg None qs ws evs n st) st' ->
    throttle st' = throttle st /\ Amount (client st') = Amount (client st).
Proof.
  intros dbg qs ws evs.
  induction evs as [|[m| |m overflow|w|m overflow|m|m] evs IH];
    intros n st st' Hc H; cbn [loadLoop] in H.
  - destruct H as [[a [H _]]|H]; [discriminate|].
    injection H as <-. now split.
  - destruct H as [[a [H Ha]]|H]; [|discriminate].
    injection H as <-. subst st'. now split.
  - now apply IH in H.
  - apply IH in H.
    + destruct H as [-> ->]. now destruct dbg.
    + rewrite <- Hc. apply printState_frame.
  - apply IH in H.
    + destruct H as [-> ->]. now destruct w.
    + now destruct w.
  - rewrite (looping_idle st Hc) in H. now apply IH in H.
  - rewrite (looping_idle st Hc) in H. now apply IH in H.
  - rewrite (lateState_idle m st Hc) in H. now apply IH in H.
Qed.

(** When the step ticker is the nil channel the limit and the pool stay,
    for the whole phase, what [makeLoad] set before its loop. *)
Lemma makeLoad_without_ticker :
  forall fl evs cfg st st',
    stepTicker (flag.d fl) = None ->
    calibrating st = false ->
    leaves (fun s => s) (makeLoad fl evs cfg st) st' ->
    throttle st' = div (qps cfg) (ofZ 10) /\
    Amount (client st') = Amount (client st) + Z.max 0 (Z.quot (c cfg) 10).
Proof.
  intros fl evs cfg st st' Ht Hc H. unfold makeLoad in H.
  rewrite Ht, (handOver_idle evs cfg st Hc) in H. cbn [fst snd] in H.
  apply loadLoop_without_ticker in H; [|exact Hc].
  destruct H as [-> ->]. now split.
Qed.

(** With a ticker, the first nine step ticks raise the limit by [qpsStep]
    and start [workerStep] workers each; later ones change nothing. *)
Lemma loadLoop_ramp :
  forall dbg p qs ws k rest j st,
    (j <= 9)%nat ->
    loadLoop dbg (Some p) qs ws (repeat StepTick k ++ rest) (Z.of_nat j) st
    = loadLoop dbg (Some p) qs ws rest (Z.of_nat (Nat.min (j + k) 9))
        (Nat.iter (Nat.min (j + k) 9 - j) (rampStep qs ws) st).
Proof.
  intros dbg p qs ws k rest. induction k as [|k IH]; intros j st Hj.
  - cbn [repeat app]. rewrite Nat.add_0_r, Nat.min_l by exact Hj.
    now rewrite Nat.sub_diag.
  - cbn [repeat app loadLoop]. unfold loadStep.
    destruct (Z.leb_spec (10 - 1) (Z.of_nat j)) as [H9|H9].
    + assert (j = 9)%nat by lia. subst j. rewrite IH by lia.
      rewrite !Nat.min_r by lia. reflexivity.
    + replace (Z.of_nat j + 1) with (Z.of_nat (S j)) by lia.
      rewrite IH by lia.
      replace (S j + k)%nat with (j + S k)%nat by lia.
      replace (Nat.min (j + S k) 9 - j)%nat
        with (S (Nat.min (j + S k) 9 - S j)) by lia.
      rewrite Nat.iter_succ_r. reflexivity.
Qed.

(** C3, on the code. A load phase of 10 s, for a configuration of 100
    requests per second and 50 workers. A twentieth of the phase is 500 ms,
    but the period given to the step ticker is counted in whole seconds:
    it is zero, the ticker is the nil channel and no step is ever taken.
    After the 19 samples of the phase and its deadline the limit is still
    100 / 10 and the pool still holds 50 / 10 workers. For 30 s the period
    is one second, where a twentieth is a second and a half. *)
Theorem load_ramp_whole_seconds :
  10 * Second / 20 = 500 * Millisecond /\
  stepTicker (10 * Second) = None /\
  (exists st',
     makeLoad (flags (ofZ 0) 50 (10 * Second)) (quiet 19 (reading 0 1000))
       (mkConfig (ofZ 100) 50) (pool 0) = Returned st' /\
     throttle st' = ofZ 10 /\ Amount (client st') = 5) /\
  30 * Second / 20 = 1500 * Millisecond /\
  stepTicker (30 * Second) = Some (1 * Second).
Proof.
  split; [reflexivity|]. split; [reflexivity|]. split.
  - destruct (makeLoad (flags (ofZ 0) 50 (10 * Second))
                (quiet 19 (reading 0 1000)) (mkConfig (ofZ 100) 50) (pool 0))
      as [st'| | |] eqn:E; try (vm_compute in E; discriminate E).
    exists st'. split; [reflexivity|].
    assert (Hl : leaves (fun s => s)
                   (makeLoad (flags (ofZ 0) 50 (10 * Second))
                      (quiet 19 (reading 0 1000)) (mkConfig (ofZ 100) 50)
                      (pool 0)) st').
    { left. exists st'. now split. }
    apply makeLoad_without_ticker in Hl; [|reflexivity|reflexivity].
    destruct Hl as [-> ->]. split; reflexivity.
  - split; reflexivity.
Qed.

(** A phase of 40 s, a multiple of 20 s: the period is the twentieth, and
    nine step ticks take the limit from [qps / 10] to ten times that, and
    the pool from [c / 10] workers to ten times that; a tenth tick changes
    nothing. *)
Lemma load_ramp_40s :
  stepTicker (40 * Second) = Some (40 * Second / 20) /\
  (forall k,
     exists st',
       makeLoad (flags (ofZ 0) 50 (40 * Second))
         (repeat StepTick (9 + k) ++ [LoadTimeout (reading 0 1000)])
         (mkConfig (ofZ 100) 50) (pool 0) = Returned st' /\
       throttle st' = ofZ 100 /\ Amount (client st') = 50).
Proof.
  split; [reflexivity|]. intros k. eexists. split.
  - unfold makeLoad.
    change (stepTicker (flag.d (flags (ofZ 0) 50 (40 * Second))))
      with (Some (2 * Second)).
    rewrite handOver_reads_first by (intros m; cbn; discriminate).
    cbn [fst snd].
    rewrite (loadLoop_ramp _ _ _ _ _ _ 0) by lia.
    replace (Nat.min (0 + (9 + k)) 9) with 9%nat by lia.
    cbn [loadLoop]. reflexivity.
  - split; vm_compute; reflexivity.
Qed.

(** * Further properties of the controller *)

(** ** What holds along every run *)

(** A property of the variables kept by every elementary action of the
    program is kept by [run]. *)
Section Preserved.

Variable P : State -> Prop.
Hypothesis P_print : forall l st, P st -> P (print l st).
Hypothesis P_client : forall cl st, P st -> P (set_client cl st).
Hypothesis P_limit : forall l st, P st -> P (SetLimit l st).
Hypothesis P_sample :
  forall dbg m overflow st, P st -> P (printState dbg m overflow st).
Hypothesis P_calibrate :
  forall errs overflow st, P st -> P (fst (calibrate errs overflow st)).
Hypothesis P_calibrating : forall b st, P st -> P (set_calibrating b st).
Hypothesis P_storing : forall n st, P st -> P (set_storing n st).
Hypothesis P_summarising : forall b st, P st -> P (set_summarising b st).

Lemma drive_preserves : forall w st, P st -> P (drive w st).
Proof.
  intros [err|] st H; unfold drive; apply P_client; [apply P_print|]; exact H.
Qed.

Lemma calSample_preserves :
  forall dbg m overflow st, P st -> P (fst (calSample dbg m overflow st)).
Proof.
  intros dbg m overflow st H. unfold calSample.
  apply P_calibrate, P_sample, H.
Qed.

Lemma lateState_preserves : forall m st, P st -> P (lateState m st).
Proof.
  intros m st H. unfold lateState.
  destruct (calibrating st); [|exact H].
  destruct (storing st =? 3); [now apply P_storing|].
  destruct (storing st =? 2); [now apply P_storing|].
  destruct (storing st =? 1); [|exact H].
  apply P_calibrating, P_storing. unfold printSummary. now apply P_print.
Qed.

Lemma handOver_preserves :
  forall evs cfg st, P st -> P (snd (snd (handOver evs cfg st))).
Proof.
  induction evs as [|e evs IH]; intros cfg st H; [exact H|].
  destruct e; try exact H.
  cbn [handOver]. apply IH. now apply lateState_preserves.
Qed.

Lemma deadlineSent_preserves : forall st, P st -> P (deadlineSent st).
Proof.
  intros st H. unfold deadlineSent, stopped. now apply P_storing, P_client.
Qed.

Lemma burstLoop_preserves :
  forall evs st st', P st -> leaves snd (burstLoop evs st) st' -> P st'.
Proof.
  induction evs as [|[m|] evs IH]; intros st st' HP H; cbn [burstLoop] in H.
  - destruct H as [[a [H _]]|H]; [discriminate|]. now injection H as <-.
  - unfold burstDeadline in H. destruct (RequestSum m =? 0).
    + destruct H as [[a [H _]]|H]; discriminate.
    + destruct H as [[a [H Ha]]|H]; [|discriminate].
      injection H as <-. cbn [snd] in Ha. subst st'.
      apply P_client. unfold printSummary. now apply P_print.
  - apply (IH _ _ (P_client _ _ HP) H).
Qed.

Lemma calLoop_preserves :
  forall dbg evs cfg st st',
    P st -> leaves snd (calLoop dbg evs cfg st) st' -> P st'.
Proof.
  intros dbg evs. induction evs as [|[m|m overflow|w] evs IH];
    intros cfg st st' HP H; cbn [calLoop] in H.
  - destruct H as [[a [H _]]|H]; [discriminate|]. now injection H as <-.
  - destruct H as [[a [H Ha]]|H]; [|discriminate].
    injection H as <-. cbn [snd] in Ha. subst st'.
    now apply deadlineSent_preserves.
  - assert (Hs := calSample_preserves dbg m overflow st HP).
    destruct (calSample dbg m overflow st) as [st1 stop]. cbn [fst] in Hs.
    destruct stop.
    + destruct H as [[a [H Ha]]|H]; [|discriminate].
      injection H as <-. cbn in Ha. subst st'.
      unfold stopped. now apply P_client.
    + apply (IH _ _ _ Hs H).
  - apply (IH _ _ _ (drive_preserves w st HP) H).
Qed.

Lemma loadLoop_preserves :
  forall dbg tk qs ws evs n st st',
    P st -> leaves (fun s => s) (loadLoop dbg tk qs ws evs n st) st' -> P st'.
Proof.
  intros dbg tk qs ws evs.
  induction evs as [|[m| |m overflow|w|m overflow|m|m] evs IH];
    intros n st st' HP H; cbn [loadLoop] in H.
  - destruct H as [[a [H _]]|H]; [discriminate|]. now injection H as <-.
  - destruct H as [[a [H Ha]]|H]; [|discriminate].
    injection H as <-. subst st'. unfold stopped.
    now apply P_summarising, P_client.
  - destruct tk as [p|]; [|apply (IH _ _ _ HP H)].
    unfold loadStep in H. destruct (10 - 1 <=? n).
    + apply (IH _ _ _ HP H).
    + apply (IH _ _ _ (P_client _ _ (P_limit _ _ HP)) H).
  - apply (IH _ _ _ (P_sample dbg m overflow st HP) H).
  - apply (IH _ _ _ (drive_preserves w st HP) H).
  - destruct (looping st); [|apply (IH _ _ _ HP H)].
    assert (Hs := calSample_preserves dbg m overflow st HP).
    destruct (calSample dbg m overflow st) as [st1 stop]. cbn [fst] in Hs.
    destruct stop.
    + destruct H as [[a [H Ha]]|H]; [|discriminate].
      injection H as <-. subst st'. unfold stopped. now apply P_client.
    + apply (IH _ _ _ Hs H).
  - destruct (looping st); [|apply (IH _ _ _ HP H)].
    destruct H as [[a [H Ha]]|H]; [|discriminate].
    injection H as <-. subst st'. now apply deadlineSent_preserves.
  - apply (IH _ _ _ (lateState_preserves m st HP) H).
Qed.

Lemma makeLoad_preserves :
  forall fl evs cfg st st',
    P st -> leaves (fun s => s) (makeLoad fl evs cfg st) st' -> P st'.
Proof.
  intros fl evs cfg st st' HP H. unfold makeLoad in H.
  apply loadLoop_preserves in H; [exact H|].
  now apply P_client, P_limit, handOver_preserves.
Qed.

Lemma makeReport_preserves :
  forall fl ok st st',
    P st -> leaves (fun s => s) (makeReport fl ok st) st' -> P st'.
Proof.
  intros fl ok st st' HP H. unfold makeReport in H. destruct ok.
  - destruct H as [[a [H Ha]]|H]; [|discriminate].
    injection H as <-. subst st'. now apply P_print, P_print.
  - destruct H as [[a [H _]]|H]; discriminate.
Qed.

Lemma discover_preserves :
  forall fl w st st',
    P st ->
    leaves snd
      (cs1 <- burstThroughput fl (burstEvents w)
                (print (Println "Run burst-load phase") st) ;;
       calibrateThroughput fl (calEvents w) (fst cs1)
         (print (Println "Run calibrate phase") (snd cs1))) st' ->
    P st'.
Proof.
  intros fl w st st' HP H. apply leaves_bind in H.
  assert (Hb : forall s,
            leaves snd
              (burstThroughput fl (burstEvents w)
                 (print (Println "Run burst-load phase") st)) s -> P s).
  { intros s Hs. unfold burstThroughput in Hs.
    apply burstLoop_preserves in Hs; [exact Hs|].
    now apply P_client, P_print. }
  destruct H as [H|[cs1 [H Hc]]].
  - apply Hb. now right.
  - unfold calibrateThroughput in Hc.
    apply calLoop_preserves in Hc; [exact Hc|].
    apply P_calibrating, P_limit, P_client, P_print, Hb.
    left. now exists cs1.
Qed.

Lemma run_preserves :
  forall fl w st st',
    P (setup w st) -> leaves (fun s => s) (run fl w st) st' -> P st'.
Proof.
  intros fl w st st' HP H. unfold run in H. apply leaves_bind in H.
  assert (Hcs : forall cs,
            P (snd cs) ->
            leaves (fun s => s)
              (st4 <- makeLoad fl (loadEvents w) (fst cs)
                        (print (Println "Run load phase") (snd cs)) ;;
               makeReport fl (created w) st4) st' ->
            P st').
  { intros cs Hc Hl. apply leaves_bind in Hl.
    assert (Hm : forall s,
              leaves (fun s => s)
                (makeLoad fl (loadEvents w) (fst cs)
                   (print (Println "Run load phase") (snd cs))) s -> P s).
    { intros s Hs. apply makeLoad_preserves in Hs; [exact Hs|].
      now apply P_print. }
    destruct Hl as [Hl|[st4 [Hl Hr]]].
    - apply Hm. now right.
    - apply makeReport_preserves in Hr; [exact Hr|].
      apply Hm. left. now exists st4. }
  destruct (eqb (flag.q fl) (ofZ 0)).
  - destruct H as [H|[cs [H Hl]]].
    + apply (discover_preserves fl w (setup w st)); [exact HP|now right].
    + apply (Hcs cs); [|exact Hl].
      apply (discover_preserves fl w (setup w st)); [exact HP|].
      left. now exists cs.
  - destruct H as [H|[cs [H Hl]]]; [discriminate|].
    injection H as <-.
    apply (Hcs (mkConfig (flag.q fl) (flag.c fl), setup w st) HP Hl).
Qed.

End Preserved.

(** ** The counters of [calibrate] *)

Lemma calibrate_await :
  forall errs overflow st,
    0 <= await st <= 3 ->
    0 <= await (fst (calibrate errs overflow st)) <= 3.
Proof.
  intros errs overflow st Ha. unfold calibrate.
  destruct (negligible (multiplier st)); [exact Ha|].
  destruct (Z.ltb_spec 0 (await st)) as [Hp|Hp].
  - cbn [fst]. fields. rewrite i64_small; lia.
  - replace (await st) with 0 by lia.
    rewrite (surjective_pairing (isFlawed errs st)), isFlawed_state.
    destruct (fst (isFlawed errs st)); cbn [negb].
    + fields. replace (await st) with 0 by lia. cbn. lia.
    + destruct (0 <? overflow); fields;
        replace (await st) with 0 by lia; cbn; lia.
Qed.

Lemma steps_await :
  forall st st',
    steps st st' -> 0 <= await st <= 3 -> 0 <= await st' <= 3.
Proof.
  intros st st' H Ha. induction H as [|st0 st1 st2 H IH Hs]; [exact Ha|].
  destruct Hs as [errs overflow st1|st1 st2 [_ [_ Hf]]].
  - apply calibrate_await, IH, Ha.
  - rewrite Hf. apply IH, Ha.
Qed.

(** X1. The counter [await] of ticks still to skip stays between 0 and 3
    in every state a run goes through: [calibrate] only counts it down
    while it is positive and only sets it, to 1 or to 3, when it is zero. *)
Theorem await_in_range :
  forall st, reachable st -> 0 <= await st <= 3.
Proof.
  intros st H. apply (steps_await initial st H). cbn. lia.
Qed.

Lemma await_in_range_witness :
  reachable (fst (calibrate 7 0 initial)) /\
  0 <= await (fst (calibrate 7 0 initial)) <= 3.
Proof.
  assert (H : reachable (fst (calibrate 7 0 initial))).
  { eapply steps_next; [apply steps_refl|apply step_calibrate]. }
  split; [exact H|exact (await_in_range _ H)].
Defined.

Lemma calibrate_baseline :
  forall errs overflow st,
    errors st <= errs ->
    errors st <= errors (fst (calibrate errs overflow st)) <= errs.
Proof.
  intros errs overflow st H. rewrite calibrate_errors.
  destruct (negb (negligible (multiplier st)) && (await st <=? 0)
            && fst (isFlawed errs st)); lia.
Qed.

(** X2. Fed with error counts that never go down, [calibrate] keeps the
    baseline [errors] between its former value and the count just read: the
    baseline never runs ahead of the counter, so the inequality tested by
    [isFlawed] always means a strict increase. *)
Theorem baseline_follows_counter :
  forall obs st,
    rising (errors st) obs ->
    errors st <= errors (fst (ticks obs st)) <= lastCount (errors st) obs /\
    (forall errs,
       lastCount (errors st) obs <= errs -> 0 <= errors st ->
       fst (isFlawed errs (fst (ticks obs st)))
       = (errors (fst (ticks obs st)) <? errs)).
Proof.
  assert (Hmain : forall obs st b,
            errors st <= b -> rising b obs ->
            errors st <= errors (fst (ticks obs st)) <= lastCount b obs).
  { induction obs as [|[errs overflow] obs IH]; intros st b Hb Hr.
    - cbn. lia.
    - cbn [ticks lastCount]. destruct Hr as [Hbe Hr].
      assert (Hc := calibrate_baseline errs overflow st ltac:(lia)).
      destruct (calibrate errs overflow st) as [st1 stop]. cbn [fst] in Hc.
      destruct stop.
      + cbn [fst]. split; [lia|].
        transitivity errs; [lia|].
        clear -Hr. revert errs Hr.
        induction obs as [|[e o] obs IHo]; intros errs Hr; cbn in *; [lia|].
        destruct Hr as [H1 H2]. specialize (IHo e H2). lia.
      + specialize (IH st1 errs ltac:(lia) Hr). lia. }
  intros obs st Hr.
  assert (H := Hmain obs st (errors st) ltac:(lia) Hr).
  split; [exact H|].
  intros errs Hl H0. apply isFlawed_increase. lia.
Qed.

Lemma baseline_follows_counter_witness :
  rising (errors initial) [(0, 0); (0, 0); (4, 0); (9, 1)] /\
  errors initial
  <= errors (fst (ticks [(0, 0); (0, 0); (4, 0); (9, 1)] initial))
  <= lastCount (errors initial) [(0, 0); (0, 0); (4, 0); (9, 1)].
Proof.
  assert (H : rising (errors initial) [(0, 0); (0, 0); (4, 0); (9, 1)])
    by (cbn; lia).
  split; [exact H|].
  exact (proj1 (baseline_follows_counter _ initial H)).
Defined.

(** ** The page handed to the renderer *)

Lemma printState_balanced :
  forall dbg m overflow st,
    balanced (r st) -> balanced (r (printState dbg m overflow st)).
Proof.
  intros dbg m overflow st [[n Hn] Hl]. split.
  - exists (S n). now apply printState_lengths.
  - now destruct dbg.
Qed.

(** X3. Whatever page the program held before, a run that returns has
    created its file and has given the renderer the page it holds; the
    eight series of that page have one common length and its mutex is
    free. *)
Theorem run_writes_balanced_page :
  forall fl w st st',
    run fl w st = Returned st' ->
    created w = true /\
    balanced (r st') /\
    In (ReportWritten (r st')) (stdout st').
Proof.
  intros fl w st st' H.
  assert (Hb : balanced (r st')).
  { apply (run_preserves (fun s => balanced (r s))) with (fl := fl) (w := w)
      (st := st); try (intros; assumption).
    - intros dbg m overflow s Hs. now apply printState_balanced.
    - intros errs overflow s Hs.
      now rewrite (proj1 (calibrate_frame errs overflow s)).
    - split; [now exists 0%nat|reflexivity].
    - left. now exists st'. }
  unfold run in H.
  apply bind_returned in H. destruct H as [cs [_ H]].
  apply bind_returned in H. destruct H as [st4 [_ H]].
  unfold makeReport in H. destruct (created w); [|discriminate].
  injection H as <-. split; [reflexivity|]. split.
  - exact Hb.
  - cbn. apply in_or_app. left. apply in_or_app. right. now left.
Qed.

Lemma run_writes_balanced_page_witness :
  exists st',
    run (flags (ofZ 0) 8 (40 * Second)) discovery initial = Returned st' /\
    seriesLengths (r st') = repeat 2%nat 8 /\
    balanced (r st').
Proof.
  destruct (run (flags (ofZ 0) 8 (40 * Second)) discovery initial)
    as [st'| | |] eqn:E; try (vm_compute in E; discriminate E).
  exists st'. split; [reflexivity|]. split.
  - change st' with (match Returned st' with
                     | Returned s => s
                     | _ => initial
                     end).
    rewrite <- E. vm_compute. reflexivity.
  - exact (proj1 (proj2 (run_writes_balanced_page _ _ _ _ E))).
Defined.

(** ** The period of the step ticker *)

Lemma upto_spec :
  forall P n k,
    upto P n k = true ->
    forall z, k <= z < k + Z.of_nat n -> P z = true.
Proof.
  intros P n. induction n as [|n IH]; intros k H z Hz.
  - cbn in Hz. lia.
  - cbn [upto] in H. apply andb_prop in H. destruct H as [Hk H].
    destruct (Z.eq_dec z k) as [->|Hne]; [exact Hk|].
    apply (IH (k + 1) H). lia.
Qed.

Lemma stepSeconds_table :
  upto (fun k => stepSeconds (k * Second) =? k / 20) (Z.to_nat 14401) 0
  = true.
Proof. vm_compute. reflexivity. Qed.

(** X4. For a load phase of a whole number [k] of seconds, up to four
    hours, the step ticker of [makeLoad] is given [k / 20] whole seconds,
    rounded down: no ticker at all below 20 s, and a twentieth of the phase
    exactly when [k] is a multiple of 20. *)
Theorem step_period_whole_seconds :
  forall k,
    0 <= k <= 14400 ->
    stepSeconds (k * Second) = k / 20 /\
    (k < 20 -> stepTicker (k * Second) = None) /\
    (20 <= k -> stepTicker (k * Second) = Some (k / 20 * Second)) /\
    (k mod 20 = 0 -> 20 * (k / 20 * Second) = k * Second).
Proof.
  intros k Hk.
  assert (E : stepSeconds (k * Second) = k / 20).
  { apply Z.eqb_eq.
    apply (upto_spec _ _ _ stepSeconds_table k).
    rewrite Z2Nat.id; lia. }
  assert (Hq : 0 <= k / 20 <= 720).
  { split; [apply Z.div_pos; lia|].
    apply Z.div_le_upper_bound; lia. }
  split; [exact E|]. unfold stepTicker. rewrite E.
  rewrite i64_small by (unfold Second; lia).
  split; [|split].
  - intros Hlt. rewrite Z.div_small by lia. reflexivity.
  - intros Hge. unfold Tick.
    assert (1 <= k / 20) by (apply Z.div_le_lower_bound; lia).
    destruct (Z.leb_spec (Second * (k / 20)) 0) as [H0|H0];
      [unfold Second in H0; lia|].
    f_equal. lia.
  - intros Hm. apply Z.mod_divide in Hm; [|lia].
    destruct Hm as [j ->]. rewrite Z.div_mul by lia. lia.
Qed.

Lemma step_period_whole_seconds_witness :
  0 <= 45 <= 14400 /\ 20 <= 45 /\
  stepTicker (45 * Second) = Some (2 * Second).
Proof.
  assert (H : 0 <= 45 <= 14400) by lia.
  assert (H20 : 20 <= 45) by lia.
  split; [exact H|]. split; [exact H20|].
  exact (proj1 (proj2 (proj2 (step_period_whole_seconds 45 H))) H20).
Defined.

(** ** The limit and the pool in the load phase *)

Lemma loadLoop_limit :
  forall dbg p qs ws evs j st st',
    looping st = false ->
    (j <= 9)%nat ->
    leaves (fun s => s)
      (loadLoop dbg (Some p) qs ws evs (Z.of_nat j) st) st' ->
    throttle st'
    = Nat.iter (Nat.min (j + stepsTaken evs) 9 - j)
        (fun l => add l qs) (throttle st) /\
    Amount (client st')
    = Amount (client st)
      + Z.of_nat (Nat.min (j + stepsTaken evs) 9 - j) * Z.max 0 ws.
Proof.
  intros dbg p qs ws evs.
  induction evs as [|[m| |m overflow|w|m overflow|m|m] evs IH];
    intros j st st' Hc Hj H; cbn [loadLoop stepsTaken] in *.
  - destruct H as [[a [H _]]|H]; [discriminate|]. injection H as <-.
    rewrite Nat.add_0_r, Nat.min_l, Nat.sub_diag by exact Hj.
    split; [reflexivity|lia].
  - destruct H as [[a [H Ha]]|H]; [|discriminate].
    injection H as <-. subst st'.
    rewrite Nat.add_0_r, Nat.min_l, Nat.sub_diag by exact Hj.
    split; [reflexivity|cbn; unfold Amount; lia].
  - unfold loadStep in H.
    destruct (Z.leb_spec (10 - 1) (Z.of_nat j)) as [H9|H9].
    + assert (j = 9)%nat by lia. subst j.
      apply (IH 9%nat st st' Hc Hj) in H.
      rewrite !Nat.min_r in * by lia. exact H.
    + replace (Z.of_nat j + 1) with (Z.of_nat (S j)) in H by lia.
      apply IH in H; [|exact Hc|lia].
      replace (Nat.min (j + S (stepsTaken evs)) 9 - j)%nat
        with (S (Nat.min (S j + stepsTaken evs) 9 - S j)) by lia.
      rewrite Nat.iter_succ_r.
      destruct H as [Ht Ha]. split; [exact Ht|].
      rewrite Ha. fields. unfold Amount, RunWorkers. cbn [workers]. lia.
  - apply IH in H;
      [|now rewrite (proj2 (printState_looping dbg m overflow st))|exact Hj].
    destruct H as [-> ->]. now destruct dbg.
  - apply IH in H; [|now rewrite (proj2 (drive_looping w st))|exact Hj].
    destruct H as [-> ->]. now destruct w.
  - rewrite Hc in H. now apply IH in H.
  - rewrite Hc in H. now apply IH in H.
  - destruct (lateState_keeps m st) as [_ [Ht [Hcl _]]].
    apply IH in H; [|now apply lateState_sample|exact Hj].
    now rewrite Ht, Hcl in H.
Qed.

(** X5. In a load phase with a step ticker and no goroutine left over from
    the calibrate phase, the limit in force and the size of the pool
    depend only on the number of step ticks taken so far, capped at nine:
    the limit is [qps / 10] with as many additions of [qps / 10], and
    [c / 10] workers were started once more than that. Samples and driver
    turns change neither. *)
Theorem load_ramp_by_steps :
  forall fl evs cfg st st' p,
    stepTicker (flag.d fl) = Some p ->
    calibrating st = false ->
    leaves (fun s => s) (makeLoad fl evs cfg st) st' ->
    throttle st'
    = Nat.iter (Nat.min (stepsTaken evs) 9)
        (fun l => add l (div (qps cfg) (ofZ 10))) (div (qps cfg) (ofZ 10)) /\
    Amount (client st')
    = Amount (client st)
      + (1 + Z.of_nat (Nat.min (stepsTaken evs) 9))
        * Z.max 0 (Z.quot (c cfg) 10).
Proof.
  intros fl evs cfg st st' p Hp Hc H. unfold makeLoad in H.
  rewrite Hp, (handOver_idle evs cfg st Hc) in H. cbn [fst snd] in H.
  apply (loadLoop_limit _ _ _ _ _ 0%nat) in H;
    [|now apply looping_idle|lia].
  rewrite handOver_stepsTaken, Nat.add_0_l, Nat.sub_0_r in H.
  destruct H as [-> ->].
  split; [reflexivity|]. fields. unfold Amount, RunWorkers. cbn [workers].
  lia.
Qed.

Lemma load_ramp_by_steps_witness :
  stepTicker (flag.d (flags (ofZ 0) 50 (40 * Second))) = Some (2 * Second) /\
  calibrating (pool 0) = false /\
  (exists st',
     makeLoad (flags (ofZ 0) 50 (40 * Second))
       [StepTick; StateTick (reading 0 10) 0; StepTick; LoadDefault None;
        StepTick]
       (mkConfig (ofZ 100) 50) (pool 0) = Running st' /\
     throttle st' = ofZ 40 /\ Amount (client st') = 20).
Proof.
  assert (Hp : stepTicker (flag.d (flags (ofZ 0) 50 (40 * Second)))
               = Some (2 * Second)) by reflexivity.
  assert (Hc : calibrating (pool 0) = false) by reflexivity.
  split; [exact Hp|]. split; [exact Hc|].
  destruct (makeLoad (flags (ofZ 0) 50 (40 * Second))
              [StepTick; StateTick (reading 0 10) 0; StepTick;
               LoadDefault None; StepTick]
              (mkConfig (ofZ 100) 50) (pool 0))
    as [st'| | |st'] eqn:E; try (vm_compute in E; discriminate E).
  exists st'. split; [reflexivity|].
  destruct (load_ramp_by_steps _ _ _ _ st' _ Hp Hc (or_intror E))
    as [-> ->].
  split; vm_compute; reflexivity.
Defined.




(** ** A run at a fixed rate *)

Lemma loadLoop_fixed :
  forall dbg tk qs ws evs n st st',
    calibrating st = false ->
    leaves (fun s => s) (loadLoop dbg tk qs ws evs n st) st' ->
    frame st st' /\ calibrating st' = false /\
    (ws <= 0 -> Amount (client st') = Amount (client st)).
Proof.
  intros dbg tk qs ws evs.
  induction evs as [|[m| |m overflow|w|m overflow|m|m] evs IH];
    intros n st st' Hc H; cbn [loadLoop] in H.
  - destruct H as [[a [H _]]|H]; [discriminate|]. injection H as <-.
    repeat split; assumption.
  - destruct H as [[a [H Ha]]|H]; [|discriminate].
    injection H as <-. subst st'. repeat split; assumption.
  - destruct tk as [p|]; [|now apply IH in H].
    unfold loadStep in H. destruct (10 - 1 <=? n); [now apply IH in H|].
    apply IH in H; [|exact Hc].
    destruct H as [[He [Hm Ha]] [Hc' Hw]].
    repeat split; try assumption.
    intros Hws. rewrite (Hw Hws). unfold Amount, RunWorkers.
    fields. cbn [workers]. rewrite Z.max_l by exact Hws. apply Z.add_0_r.
  - apply IH in H; [|rewrite <- Hc; apply printState_frame].
    destruct H as [[He [Hm Ha]] [Hc' Hw]].
    destruct (printState_frame dbg m overflow st)
      as [Pe [Pm [Pa [_ [Pc _]]]]].
    repeat split; try congruence.
    intros Hws. rewrite (Hw Hws). now rewrite Pc.
  - apply IH in H; [|now destruct w].
    destruct H as [[He [Hm Ha]] [Hc' Hw]].
    destruct (drive_frame w st) as [De [Dm [Da _]]].
    repeat split; try congruence.
    intros Hws. rewrite (Hw Hws). now destruct w.
  - rewrite (looping_idle st Hc) in H. now apply IH in H.
  - rewrite (looping_idle st Hc) in H. now apply IH in H.
  - rewrite (lateState_idle m st Hc) in H. now apply IH in H.
Qed.

Lemma run_fixed :
  forall fl w st st',
    eqb (flag.q fl) (ofZ 0) = false ->
    calibrating st = false ->
    leaves (fun s => s) (run fl w st) st' ->
    frame st st' /\ calibrating st' = false /\
    (Z.quot (flag.c fl) 10 <= 0 -> Amount (client st') = 0).
Proof.
  intros fl w st st' Hq Hc H. unfold run in H. rewrite Hq in H.
  cbn [bind fst snd] in H. apply leaves_bind in H.
  assert (Hl : forall s,
            leaves (fun s => s)
              (makeLoad fl (loadEvents w) (mkConfig (flag.q fl) (flag.c fl))
                 (print (Println "Run load phase") (setup w st))) s ->
            frame st s /\ calibrating s = false /\
            (Z.quot (flag.c fl) 10 <= 0 -> Amount (client s) = 0)).
  { intros s Hs. unfold makeLoad in Hs.
    assert (Hc0 : calibrating
                    (print (Println "Run load phase") (setup w st)) = false)
      by exact Hc.
    rewrite (handOver_idle (loadEvents w) _ _ Hc0) in Hs.
    cbn [fst snd] in Hs.
    apply loadLoop_fixed in Hs; [|exact Hc].
    destruct Hs as [[He [Hm Ha]] [Hc' Hw]].
    repeat split; try assumption.
    intros Hws. cbn [c] in Hw. rewrite (Hw Hws).
    unfold Amount, RunWorkers, setup. fields. cbn [workers].
    rewrite Z.max_l by exact Hws. reflexivity. }
  destruct H as [H|[st4 [H Hr]]].
  - apply Hl. now right.
  - destruct (Hl st4 (or_introl (ex_intro _ st4 (conj H eq_refl))))
      as [[He [Hm Ha]] [Hc' Hw]].
    unfold makeReport in Hr. destruct (created w).
    + destruct Hr as [[a [Hr Hx]]|Hr]; [|discriminate].
      injection Hr as <-. subst st'. repeat split; assumption.
    + destruct Hr as [[a [Hr _]]|Hr]; discriminate.
Qed.

(** X6. A run with a rate given on the command line never calibrates:
    whatever the events, the baseline [errors], the [multiplier] and
    [await] are at the end, or wherever the run stands, what they were at
    the start. *)
Theorem fixed_rate_never_calibrates :
  forall fl w st st',
    eqb (flag.q fl) (ofZ 0) = false ->
    calibrating st = false ->
    leaves (fun s => s) (run fl w st) st' ->
    errors st' = errors st /\ multiplier st' = multiplier st /\
    await st' = await st.
Proof.
  intros fl w st st' Hq Hc H. now apply (run_fixed fl w st st' Hq Hc H).
Qed.

Lemma fixed_rate_never_calibrates_witness :
  eqb (flag.q (flags (ofZ 100) 8 (40 * Second))) (ofZ 0) = false /\
  calibrating initial = false /\
  (exists st',
     run (flags (ofZ 100) 8 (40 * Second)) discovery initial = Returned st' /\
     multiplier st' = decimal 1 1).
Proof.
  assert (Hq : eqb (flag.q (flags (ofZ 100) 8 (40 * Second))) (ofZ 0) = false)
    by reflexivity.
  assert (Hc : calibrating initial = false) by reflexivity.
  split; [exact Hq|]. split; [exact Hc|].
  destruct (run (flags (ofZ 100) 8 (40 * Second)) discovery initial)
    as [st'| | |] eqn:E; try (vm_compute in E; discriminate E).
  exists st'. split; [reflexivity|].
  exact (proj1 (proj2 (fixed_rate_never_calibrates _ _ _ _ Hq Hc
                         (or_introl (ex_intro _ st' (conj E eq_refl)))))).
Defined.

(** X7. With a rate given on the command line and fewer than ten workers
    asked for, the tenth of [c] that every step starts is zero workers: the
    pool is empty for the whole run. *)
Theorem fixed_rate_few_workers :
  forall fl w st st',
    eqb (flag.q fl) (ofZ 0) = false ->
    calibrating st = false ->
    flag.c fl < 10 ->
    leaves (fun s => s) (run fl w st) st' ->
    Amount (client st') = 0.
Proof.
  intros fl w st st' Hq Hc Hlt H.
  apply (run_fixed fl w st st' Hq Hc H).
  destruct (Z.le_gt_cases 0 (flag.c fl)) as [Hp|Hn].
  - rewrite Z.quot_small by lia. lia.
  - apply Z.quot_le_upper_bound; lia.
Qed.

Lemma fixed_rate_few_workers_witness :
  eqb (flag.q (flags (ofZ 100) 8 (40 * Second))) (ofZ 0) = false /\
  calibrating initial = false /\
  flag.c (flags (ofZ 100) 8 (40 * Second)) < 10 /\
  (exists st',
     run (flags (ofZ 100) 8 (40 * Second)) discovery initial = Returned st' /\
     Amount (client st') = 0).
Proof.
  assert (Hq : eqb (flag.q (flags (ofZ 100) 8 (40 * Second))) (ofZ 0) = false)
    by reflexivity.
  assert (Hc : calibrating initial = false) by reflexivity.
  assert (Hl : flag.c (flags (ofZ 100) 8 (40 * Second)) < 10)
    by (cbn; lia).
  split; [exact Hq|]. split; [exact Hc|]. split; [exact Hl|].
  destruct (run (flags (ofZ 100) 8 (40 * Second)) discovery initial)
    as [st'| | |] eqn:E; try (vm_compute in E; discriminate E).
  exists st'. split; [reflexivity|].
  exact (fixed_rate_few_workers _ _ _ _ Hq Hc Hl
           (or_introl (ex_intro _ st' (conj E eq_refl)))).
Defined.

(** ** The driver and the pool *)

Lemma drive_client :
  forall w st,
    client (drive w st)
    = mkClient (workers (client st)) (jobs (client st) + 1)
        (flushes (client st)).
Proof. now intros [err|] st. Qed.

(** X8. The driver loop hands the pool exactly one token for each turn it
    takes before it is stopped, none after, and flushes the pool once, when
    it is stopped; it neither starts a worker nor touches the limit. *)
Theorem load_accounts_for_jobs :
  forall evs st,
    jobs (client (fst (load evs st)))
    = jobs (client st) + Z.of_nat (turnsTaken evs) /\
    flushes (client (fst (load evs st)))
    = flushes (client st) + (if snd (load evs st) then 1 else 0) /\
    workers (client (fst (load evs st))) = workers (client st) /\
    throttle (fst (load evs st)) = throttle st.
Proof.
  induction evs as [|[|w] evs IH]; intros st.
  - cbn. repeat split; lia.
  - cbn. repeat split; lia.
  - cbn [load turnsTaken]. destruct (IH (drive w st)) as [Hj [Hf [Hw Ht]]].
    rewrite Hj, Hf, Hw, Ht, drive_client. cbn [jobs flushes workers].
    destruct (drive_frame w st) as [_ [_ [_ [-> _]]]].
    repeat split; lia.
Qed.

(** ** The estimate of the burst phase *)

(** X9. With counters as the metrics package keeps them (no more errors
    than requests, at least one request), the estimate of the burst phase
    is halved when every counted request failed and in no other case. *)
Theorem burst_halves_iff_all_failed :
  forall m st,
    0 < RequestSum m -> 0 <= Errors m <= RequestSum m ->
    burstDeadline m st
    = Returned
        (if Errors m =? RequestSum m
         then halved (burstConfig m st) else burstConfig m st,
         stopped (printSummary "Burst Throughput" m st)).
Proof.
  intros m st Hs He.
  destruct (Z.eqb_spec (Errors m) (RequestSum m)) as [E|E].
  - now apply burst_all_errors_halve.
  - apply burst_partial_errors_keep. lia.
Qed.

Lemma burst_halves_iff_all_failed_witness :
  0 < RequestSum (reading 99 100) /\
  0 <= Errors (reading 99 100) <= RequestSum (reading 99 100) /\
  burstDeadline (reading 99 100) (pool 8)
  = Returned (mkConfig (ofZ 20) 8,
              stopped
                (printSummary "Burst Throughput" (reading 99 100) (pool 8))).
Proof.
  assert (Hs : 0 < RequestSum (reading 99 100)) by reflexivity.
  assert (He : 0 <= Errors (reading 99 100) <= RequestSum (reading 99 100))
    by (cbn; lia).
  split; [exact Hs|]. split; [exact He|].
  exact (burst_halves_iff_all_failed (reading 99 100) (pool 8) Hs He).
Defined.

(** ** The end of the calibrate phase *)





(** ** What one call of [calibrate] can change *)

(** X12. No call of [calibrate] changes both the limit and the pool, and
    none touches the report page. A call that does not evaluate, because
    the multiplier is negligible or a tick is still to be skipped, leaves
    the limit, the pool, the multiplier and the baseline alone; so does,
    for the limit and the pool, a call that retreats. *)
Theorem calibrate_one_change :
  forall errs overflow st,
    let st' := fst (calibrate errs overflow st) in
    r st' = r st /\
    (throttle st' = throttle st \/ client st' = client st) /\
    (negligible (multiplier st) = true \/ 0 < await st ->
       throttle st' = throttle st /\ client st' = client st /\
       multiplier st' = multiplier st /\ errors st' = errors st) /\
    (retreats errs st = true ->
       throttle st' = throttle st /\ client st' = client st).
Proof.
  intros errs overflow st st'. subst st'. unfold retreats, calibrate.
  destruct (negligible (multiplier st)) eqn:En.
  { cbn. repeat split; auto; discriminate. }
  destruct (Z.ltb_spec 0 (await st)) as [Hp|Hp].
  { apply Z.leb_gt in Hp. rewrite Hp. cbn [fst negb andb].
    repeat split; auto; discriminate. }
  assert (Hno : false = true \/ 0 < await st -> False).
  { intros [H0|H0]; [discriminate|lia]. }
  rewrite (surjective_pairing (isFlawed errs st)), isFlawed_state.
  destruct (fst (isFlawed errs st)); cbn [negb andb].
  - cbn [fst]. split; [reflexivity|]. split; [now left|].
    split; [intros H0; now apply Hno in H0|].
    intros _. now split.
  - destruct (0 <? overflow); cbn [fst];
      (split; [reflexivity|]);
      (split; [auto|]);
      (split; [intros H0; now apply Hno in H0|]);
      rewrite andb_false_r; discriminate.
Qed.

Lemma calibrate_one_change_witness :
  (negligible (multiplier (set_await 2 (pool 10))) = true \/
   0 < await (set_await 2 (pool 10))) /\
  client (fst (calibrate 7 1 (set_await 2 (pool 10))))
  = client (set_await 2 (pool 10)).
Proof.
  assert (H : negligible (multiplier (set_await 2 (pool 10))) = true \/
              0 < await (set_await 2 (pool 10))) by (right; cbn; lia).
  split; [exact H|].
  exact (proj1 (proj2 (proj1 (proj2 (proj2
           (calibrate_one_change 7 1 (set_await 2 (pool 10))))) H))).
Defined.

(** ** The header of the report *)

(** X13. Wherever a run stands, the page it holds carries the host of the
    target as its title and the sample period in seconds, 0.5, as its
    interval. *)
Theorem report_header :
  forall fl w st st',
    leaves (fun s => s) (run fl w st) st' ->
    Title (r st') = host w /\ Interval (r st') = decimal 5 1.
Proof.
  intros fl w st st' H.
  apply (run_preserves
           (fun s => Title (r s) = host w /\ Interval (r s) = decimal 5 1))
    with (fl := fl) (w := w) (st := st); try (intros; assumption).
  - intros dbg m overflow s Hs. now destruct dbg.
  - intros errs overflow s Hs.
    now rewrite (proj1 (calibrate_frame errs overflow s)).
  - split; reflexivity.
Qed.

Lemma report_header_witness :
  exists st',
    run (flags (ofZ 0) 8 (40 * Second)) discovery initial = Returned st' /\
    Title (r st') = "localhost"%string.
Proof.
  destruct (run (flags (ofZ 0) 8 (40 * Second)) discovery initial)
    as [st'| | |] eqn:E; try (vm_compute in E; discriminate E).
  exists st'. split; [reflexivity|].
  exact (proj1 (report_header _ _ _ _
                  (or_introl (ex_intro _ st' (conj E eq_refl))))).
Defined.
